(** * part-db-importer: the LCSC export converter and the Part-DB importer

    A shallow embedding of [convert-lcsc-export.py] and [importer.py].

    Python [str] values are modelled as [String.string], one [ascii] per
    code point, which covers the code points U+0000..U+00FF.  Integers are
    [Z].  The browser page driven through Playwright is an abstract world
    [W] with one state-passing operation per Playwright call; every
    operation may raise.  Logging has no influence on control flow and is
    modelled only where the text speaks of a diagnostic (the request
    parser). *)

From Stdlib Require Import ZArith Lia Bool List Ascii String.
From stdpp Require Import base option list strings gmap pretty.
Import ListNotations.
Local Open Scope string_scope.
Local Open Scope list_scope.
Local Open Scope Z_scope.

(** ** Python string primitives *)

Module PyStr.

(** [str.isspace] on one code point below 256; the same set is matched by
    [\s] in a [re] pattern on [str]. *)
Definition is_space (c : ascii) : bool :=
  let n := nat_of_ascii c in
  ((9 <=? n) && (n <=? 13) || (28 <=? n) && (n <=? 32)
   || (n =? 133) || (n =? 160))%nat.

(** [\d] on one code point below 256: the decimal digits. *)
Definition is_digit (c : ascii) : bool :=
  let n := nat_of_ascii c in ((48 <=? n) && (n <=? 57))%nat.

Definition digit_value (c : ascii) : Z := Z.of_nat (nat_of_ascii c) - 48.

Definition newline : ascii := ascii_of_nat 10.

Definition is_empty (s : string) : bool :=
  match s with EmptyString => true | _ => false end.

(** Truthiness of a [str]: non-empty. *)
Definition truthy (s : string) : bool := negb (is_empty s).

Fixpoint lstrip (s : string) : string :=
  match s with
  | String c s' => if is_space c then lstrip s' else s
  | EmptyString => EmptyString
  end.

Fixpoint rstrip (s : string) : string :=
  match s with
  | String c s' =>
      let r := rstrip s' in
      if is_space c && is_empty r then EmptyString else String c r
  | EmptyString => EmptyString
  end.

(** [s.strip()] *)
Definition strip (s : string) : string := rstrip (lstrip s).

Fixpoint all_chars (p : ascii -> bool) (s : string) : bool :=
  match s with
  | String c s' => p c && all_chars p s'
  | EmptyString => true
  end.

Fixpoint skip (n : nat) (s : string) : string :=
  match n, s with
  | S n', String _ s' => skip n' s'
  | _, _ => s
  end.

(** [sub in s] *)
Fixpoint contains (sub s : string) : bool :=
  String.prefix sub s
  || match s with
     | String _ s' => contains sub s'
     | EmptyString => false
     end.

(** The text after the first occurrence of [sub] in [s], if any. *)
Fixpoint after_first (sub s : string) : option string :=
  if String.prefix sub s then Some (skip (String.length sub) s)
  else match s with
       | String _ s' => after_first sub s'
       | EmptyString => None
       end.

(** [s.split('->')]: non-overlapping occurrences, scanned left to right;
    the result is never empty. *)
Fixpoint split_arrow (s : string) : list string :=
  match s with
  | String c s' =>
      let one_more :=
        match split_arrow s' with
        | seg :: segs => String c seg :: segs
        | [] => [String c EmptyString]
        end in
      if Ascii.eqb c "-" then
        match s' with
        | String d rest =>
            if Ascii.eqb d ">" then EmptyString :: split_arrow rest
            else one_more
        | EmptyString => one_more
        end
      else one_more
  | EmptyString => [EmptyString]
  end.

(** The longest prefix without a line feed: what [.] can match. *)
Fixpoint take_line (s : string) : string :=
  match s with
  | String c s' =>
      if Ascii.eqb c newline then EmptyString else String c (take_line s')
  | EmptyString => EmptyString
  end.

Fixpoint take_digits (s : string) : string :=
  match s with
  | String c s' =>
      if is_digit c then String c (take_digits s') else EmptyString
  | EmptyString => EmptyString
  end.

(** [str.lower] on code points below 256. *)
Definition lower_char (c : ascii) : ascii :=
  let n := nat_of_ascii c in
  if ((65 <=? n) && (n <=? 90)
      || (192 <=? n) && (n <=? 222) && negb (n =? 215))%nat
  then ascii_of_nat (n + 32) else c.

Fixpoint lower (s : string) : string :=
  match s with
  | String c s' => String (lower_char c) (lower s')
  | EmptyString => EmptyString
  end.

(** The digits of [int(s)] after the sign: decimal digits, single
    underscores allowed between two digits. *)
Fixpoint int_digits (acc : Z) (after_digit : bool) (s : string) : option Z :=
  match s with
  | String c s' =>
      if is_digit c then int_digits (10 * acc + digit_value c) true s'
      else if Ascii.eqb c "_" && after_digit then
        match s' with
        | String d _ => if is_digit d then int_digits acc false s' else None
        | EmptyString => None
        end
      else None
  | EmptyString => if after_digit then Some acc else None
  end.

(** [int(s)] in base ten; [None] stands for [ValueError].  Two things are
    left out: the limit that recent interpreters put on the number of
    digits (4300 by default, beyond which [int] raises [ValueError]), and
    the narrower white space of [int], which does not skip U+001C to
    U+001F; [load_parts_csv] only calls it on a text that [str.strip] has
    already trimmed. *)
Definition py_int (s : string) : option Z :=
  match strip s with
  | String "+" r => int_digits 0 false r
  | String "-" r => Z.opp <$> int_digits 0 false r
  | r => int_digits 0 false r
  end.

(** The last character of [s] is white space. *)
Fixpoint ends_in_space (s : string) : bool :=
  match s with
  | String c EmptyString => is_space c
  | String _ s' => ends_in_space s'
  | EmptyString => false
  end.

(** [s] begins with the separator. *)
Definition starts_arrow (s : string) : bool :=
  match s with
  | String c (String d _) => Ascii.eqb c "-" && Ascii.eqb d ">"
  | _ => false
  end.

End PyStr.

Import PyStr.

(** ** Exceptions and results *)

(** The exception classes the two scripts can meet; all of them derive
    from [Exception], and [PlaywrightTimeout] is the one class that some
    handlers single out. *)
Inductive exn : Type :=
  | PlaywrightTimeout
  | PlaywrightError
  | TypeError
  | AttributeError.

Inductive result (A : Type) : Type :=
  | Ok (a : A)
  | Err (e : exn).
Arguments Ok {A} a.
Arguments Err {A} e.

(** ** convert-lcsc-export.py *)

Module Extractor.

(** One row of [csv.DictReader]: [dict(zip(fieldnames, row))], then every
    field name beyond the end of a short row is bound to [None] (the
    default [restval]).  The cells beyond the header go under the key
    [None], which the script never reads, so that entry is left out. *)
Definition dict_row (fieldnames row : list string) : gmap string (option string) :=
  let d := foldl (fun m kv => <[kv.1 := Some kv.2]> m) ∅ (zip fieldnames row) in
  foldl (fun m k => <[k := None]> m) d (drop (length row) fieldnames).

(** [row.get(key, "")]: the outer [Some] is a Python value, [None] inside
    it would be Python's [None]. *)
Definition get (d : gmap string (option string)) (key : string) : option string :=
  default (Some EmptyString) (d !! key).

Definition line (lcsc qty : string) : string :=
  lcsc +:+ "," +:+ qty +:+ String newline EmptyString.

(** The body of the loop: the line written for the row, if any.  Calling
    [.strip()] on [None] raises [AttributeError]. *)
Definition extract_row (d : gmap string (option string)) : result (option string) :=
  match get d "LCSC Part Number" with
  | None => Err AttributeError
  | Some a =>
      let lcsc := strip a in
      match get d "Quantity" with
      | None => Err AttributeError
      | Some b =>
          let qty := strip b in
          Ok (if truthy lcsc && truthy qty then Some (line lcsc qty) else None)
      end
  end.

(** The loop over the reader, [out] being what was written so far.
    [DictReader] skips the rows that [csv.reader] returns as [[]]. *)
Fixpoint write_rows (fieldnames : list string) (rows : list (list string))
    (out : list string) : list string * option exn :=
  match rows with
  | [] => (out, None)
  | [] :: rest => write_rows fieldnames rest out
  | row :: rest =>
      match extract_row (dict_row fieldnames row) with
      | Err e => (out, Some e)
      | Ok None => write_rows fieldnames rest out
      | Ok (Some l) => write_rows fieldnames rest (out ++ [l])
      end
  end.

(** [extract_lcsc_and_quantity] on the rows that [csv.reader] yields for
    the input file, the first one being the header: the lines written and
    the exception that ended the run, if any. *)
Definition extract_lcsc_and_quantity (table : list (list string))
    : list string * option exn :=
  match table with
  | [] => ([], None)
  | fieldnames :: rows => write_rows fieldnames rows []
  end.

End Extractor.

(** ** importer.py: the parts that do not touch the page *)

Module Importer.

(** *** [load_parts_csv] *)

(** [$] without [re.MULTILINE]: the end of the string, or just before a
    line feed that ends the string. *)
Definition at_end (s : string) : bool :=
  match s with
  | EmptyString => true
  | String c EmptyString => Ascii.eqb c newline
  | _ => false
  end.

(** [\d+$]: one digit, then either more of the same (tried first, the
    quantifier is greedy) or the [$]. *)
Fixpoint digits_then_end (s : string) : bool :=
  match s with
  | String c s' => is_digit c && (digits_then_end s' || at_end s')
  | EmptyString => false
  end.

(** [re.match(r'^C\d+$', s)] as a truth value. *)
Definition re_match_lcsc_id (s : string) : bool :=
  match s with
  | String c r => Ascii.eqb c "C" && digits_then_end r
  | EmptyString => false
  end.

(** The three warnings of [load_parts_csv]. *)
Inductive diagnostic : Type :=
  | SkippingInvalidRow (row : list string)
  | InvalidLcscIdFormat (lcsc_id : string)
  | InvalidAmount (lcsc_id amount : string).

(** The body of the loop over [csv.reader]: the pair appended to [parts],
    or the warning logged before [continue]. *)
Definition load_row (row : list string) : diagnostic + (string * Z) :=
  match row with
  | [f0; f1] =>
      let lcsc_id := strip f0 in
      let amount := strip f1 in
      if re_match_lcsc_id lcsc_id then
        match py_int amount with
        | Some n => inr (lcsc_id, n)
        | None => inl (InvalidAmount lcsc_id amount)
        end
      else inl (InvalidLcscIdFormat lcsc_id)
  | _ => inl (SkippingInvalidRow row)
  end.

(** [load_parts_csv] on the rows of an existing file: the list [parts] and
    the warnings, both in the order of the loop. *)
Definition load_parts_csv (rows : list (list string))
    : list (string * Z) * list diagnostic :=
  foldl (fun '(parts, log) row =>
           match load_row row with
           | inr p => (parts ++ [p], log)
           | inl d => (parts, log ++ [d])
           end) ([], []) rows.

(** The warning logged for a row, if it is dropped. *)
Definition row_diagnostic (row : list string) : option diagnostic :=
  match load_row row with inl d => Some d | inr _ => None end.

(** The pair appended for a row, if it is kept. *)
Definition row_part (row : list string) : option (string * Z) :=
  match load_row row with inr p => Some p | inl _ => None end.

(** A non-empty line cut at each comma. *)
Fixpoint split_commas (ln : string) : list string :=
  match ln with
  | String c s' =>
      match split_commas s' with
      | f :: fs => if Ascii.eqb c "," then EmptyString :: f :: fs
                   else String c f :: fs
      | [] => [String c EmptyString]
      end
  | EmptyString => [EmptyString]
  end.

(** The fields [csv.reader] yields for a line that has no quote character
    and no line break: none for the empty line, otherwise the line cut
    at each comma. *)
Definition csv_fields (ln : string) : list string :=
  if is_empty ln then [] else split_commas ln.

(** *** [parse_lcsc_category] *)

(** [(.+)] at [s]: as many characters other than a line feed as there
    are, and at least one. *)
Definition dot_plus (s : string) : option string :=
  let g := take_line s in if is_empty g then None else Some g.

(** [\s*(.+)] at [s] by backtracking: the greedy [\s*] first takes one
    more white-space character when there is one, and gives it back when
    the rest of the pattern then fails.  The result is group 1. *)
Fixpoint spaces_then_group (s : string) : option string :=
  match s with
  | String c s' =>
      if is_space c then
        match spaces_then_group s' with
        | Some g => Some g
        | None => dot_plus s
        end
      else dot_plus s
  | EmptyString => dot_plus s
  end.

Definition marker : string := "Provider:".

(** [re.search(r'Provider:\s*(.+)', s)]: the match at the leftmost start
    position that has one; the result is group 1. *)
Fixpoint re_search_provider (s : string) : option string :=
  let here :=
    if String.prefix marker s
    then spaces_then_group (skip (String.length marker) s) else None in
  match here with
  | Some g => Some g
  | None =>
      match s with
      | String _ s' => re_search_provider s'
      | EmptyString => None
      end
  end.

(** [parts[0]] and [parts[-1]] of the [return] statements. *)
Definition path_of_segments (parts : list string) : string * string :=
  match parts with
  | [p] => (EmptyString, p)
  | _ => (List.hd EmptyString parts, List.last parts EmptyString)
  end.

Definition parse_lcsc_category (help_text : string) : string * string :=
  match re_search_provider help_text with
  | None => (EmptyString, EmptyString)
  | Some g =>
      let category_text := strip g in
      path_of_segments (map strip (split_arrow category_text))
  end.

End Importer.

(** ** The page *)

Module Page.

(** The addresses the importer navigates to, each standing for the
    f-string that builds it from [base_url]. *)
Inductive url : Type :=
  | LoginUrl
  | AccountUrl
  | SearchUrl (keyword : string)
  | SuppliersUrl (part_id : string)
  | CreateUrl (lcsc_id : string).

Definition url_string (base_url : string) (u : url) : string :=
  match u with
  | LoginUrl => base_url +:+ "/en/login?_target_path=%2F"
  | AccountUrl => base_url +:+ "/en/user/info"
  | SearchUrl keyword =>
      base_url +:+ "/en/parts/search?"
      +:+ "name=1&category=1&description=1&mpn=1&tags=1&"
      +:+ "storelocation=1&comment=1&ipn=1&ordernr=1&keyword=" +:+ keyword
  | SuppliersUrl part_id => base_url +:+ "/en/part/" +:+ part_id +:+ "/info#suppliers"
  | CreateUrl lcsc_id =>
      base_url +:+ "/en/part/from_info_provider/lcsc/" +:+ lcsc_id +:+ "/create"
  end.

(** CSS selectors.  [AnchorHref [s1; s2]] stands for [a[href*="s1"][href*="s2"]],
    the anchors whose [href] contains every listed text; the other selectors
    are kept as written. *)
Inductive selector : Type :=
  | AnchorHref (subs : list string)
  | Raw (css : string).

(** Playwright locators: descriptions of elements, resolved against the
    page each time an action is performed on them. *)
Inductive locator : Type :=
  | Css (s : selector)
  | Sub (l : locator) (s : selector)
  | HasText (l : locator) (text : string)
  | First (l : locator)
  | Last (l : locator)
  | Nth (l : locator) (i : nat).

(** A computation on the world [W] that may raise. *)
Definition E (W A : Type) : Type := W -> W * result A.

Definition ret {W A} (a : A) : E W A := fun w => (w, Ok a).
Definition raise {W A} (e : exn) : E W A := fun w => (w, Err e).
Definition bind {W A B} (m : E W A) (k : A -> E W B) : E W B :=
  fun w => match m w with
           | (w', Ok a) => k a w'
           | (w', Err e) => (w', Err e)
           end.

(** [try: m  except Exception: h] *)
Definition try_except {W A} (m : E W A) (h : E W A) : E W A :=
  fun w => match m w with
           | (w', Ok a) => (w', Ok a)
           | (w', Err _) => h w'
           end.

(** [try: m  except PlaywrightTimeout: h] *)
Definition try_except_timeout {W A} (m : E W A) (h : E W A) : E W A :=
  fun w => match m w with
           | (w', Err PlaywrightTimeout) => h w'
           | r => r
           end.

(** The calls made on Playwright, the console and the file system.  [W]
    holds the browser, its page and the handles the importer keeps. *)
Record ops (W : Type) : Type := {
  launch : E W unit;
  prompt_enter : E W unit;
  goto : url -> E W unit;
  page_url : W -> string;
  count : locator -> E W nat;
  get_attribute : locator -> string -> E W (option string);
  inner_text : locator -> E W string;
  wait_for_selector : selector -> Z -> E W unit;
  wait_for_timeout : Z -> E W unit;
  wait_for_load_state : Z -> E W unit;
  click : locator -> E W unit;
  fill : locator -> string -> E W unit;
  press : locator -> string -> E W unit;
  is_visible : locator -> E W bool;
  screenshot : string -> E W unit;
  close_browser : E W unit
}.
Arguments launch {W} _. Arguments prompt_enter {W} _. Arguments goto {W} _.
Arguments page_url {W} _. Arguments count {W} _. Arguments get_attribute {W} _.
Arguments inner_text {W} _. Arguments wait_for_selector {W} _.
Arguments wait_for_timeout {W} _. Arguments wait_for_load_state {W} _.
Arguments click {W} _. Arguments fill {W} _. Arguments press {W} _.
Arguments is_visible {W} _. Arguments screenshot {W} _.
Arguments close_browser {W} _.

End Page.

Notation "'do' x <- m ; k" := (Page.bind m (fun x => k))
  (at level 10, x name, m at level 100, k at level 200).
Notation "'run' m ; k" := (Page.bind m (fun _ => k))
  (at level 10, m at level 100, k at level 200).

(** ** importer.py: the parts that drive the page *)

Module Run.
Import Importer Page.

(** The selector constants; the quotation marks around attribute values
    are left out. *)
Definition SELECTOR_HELP_TEXT : selector := Raw "#part_base_category_help".
Definition SELECTOR_SAVE : selector := Raw "#part_base_save".
Definition SELECTOR_OPTION : selector := Raw ".ts-dropdown .option[data-value]".
Definition SELECTOR_CREATE : selector := Raw ".ts-dropdown .create".
Definition SELECTOR_CATEGORY_CONTROL : selector :=
  Raw "#part_base_category + .ts-wrapper .ts-control".
Definition SELECTOR_STOCKS_TAB : selector := Raw "a.nav-link[href=#part_lots]".
Definition SELECTOR_COMMON_TAB : selector := Raw "a.nav-link[href=#common]".
Definition SELECTOR_ADD_STOCK : selector :=
  Raw "button[data-action=elements--collection-type#createElement]".

(** [/en/part/(\d+)/] at the start of [s]: group 1.  The greedy [\d+]
    takes every digit; giving one back cannot help, since the character
    after it would be a digit and not the [/]. *)
Definition part_id_here (s : string) : option string :=
  if String.prefix "/en/part/" s then
    let rest := skip 9 s in
    let ds := take_digits rest in
    if truthy ds && String.prefix "/" (skip (String.length ds) rest)
    then Some ds else None
  else None.

(** [re.search(r'/en/part/(\d+)/', href)]: group 1 of the leftmost match. *)
Fixpoint re_search_part_id (href : string) : option string :=
  match part_id_here href with
  | Some ds => Some ds
  | None =>
      match href with
      | String _ s' => re_search_part_id s'
      | EmptyString => None
      end
  end.

(** The test applied to the text of one supplier link. *)
Definition link_text_matches (lcsc_id inner : string) : bool :=
  let link_text := strip inner in String.eqb link_text lcsc_id.

(** How a call that may also leave through [sys.exit] ends. *)
Inductive flow (A : Type) : Type :=
  | Done (a : A)
  | Raised (e : exn)
  | SysExit (code : Z).
Arguments Done {A} a.
Arguments Raised {A} e.
Arguments SysExit {A} code.

(** What [parser.parse_args()] does with the command line: it returns
    the arguments ([csv_path], [--base-url], [--log-level]), or it ends
    the process, with status 2 after a usage error (no CSV path, an
    unknown option, a log level outside the choices) and with status 0
    after printing the help. *)
Inductive parse_args_result : Type :=
  | Namespace (csv_path : string) (base_url : option string) (log_level : string)
  | UsageError
  | HelpPrinted.

Section WithPage.
Context {W : Type} (P : ops W).

(** [locator.all()]: one locator per element found now. *)
Definition all (l : locator) : E W (list locator) :=
  do n <- count P l; ret (map (Nth l) (seq 0 n)).

(** The inner loop of [check_part_exists]; [true] is its [return True]. *)
Fixpoint check_lcsc_links (lcsc_id : string) (lcsc_links : list locator)
    : E W bool :=
  match lcsc_links with
  | [] => ret false
  | lcsc_link :: rest =>
      do inner <- inner_text P lcsc_link;
      if link_text_matches lcsc_id inner then ret true
      else check_lcsc_links lcsc_id rest
  end.

(** What is done for one search result once its part id is known. *)
Definition check_candidate (lcsc_id part_id : string) : E W bool :=
  run goto P (SuppliersUrl part_id);
  do lcsc_links <- all (Css (AnchorHref ["lcsc.com"; lcsc_id]));
  check_lcsc_links lcsc_id lcsc_links.

(** The outer loop of [check_part_exists].  [re.search] on a missing
    [href] raises [TypeError]. *)
Fixpoint check_part_links (lcsc_id : string) (part_links : list locator)
    : E W bool :=
  match part_links with
  | [] => ret false
  | link :: rest =>
      do href <- get_attribute P link "href";
      match href with
      | None => raise TypeError
      | Some h =>
          match re_search_part_id h with
          | None => check_part_links lcsc_id rest
          | Some part_id =>
              do found <- check_candidate lcsc_id part_id;
              if found then ret true else check_part_links lcsc_id rest
          end
      end
  end.

(** The body of the [try] of [check_part_exists]. *)
Definition check_part_exists_body (lcsc_id : string) : E W bool :=
  run goto P (SearchUrl lcsc_id);
  do part_links <- all (Css (AnchorHref ["/en/part/"; "/info"]));
  match part_links with
  | [] => ret false
  | _ => check_part_links lcsc_id part_links
  end.

(** [check_part_exists]: never raises. *)
Definition check_part_exists (lcsc_id : string) (w : W) : W * bool :=
  match check_part_exists_body lcsc_id w with
  | (w', Ok b) => (w', b)
  | (w', Err _) => (w', false)
  end.

(** Some call of [inner_text] returned a text that trims to [lcsc_id],
    leaving the world [w']. *)
Definition saw_matching_text (lcsc_id : string) (w' : W) : Prop :=
  exists link w0 inner,
    inner_text P link w0 = (w', Ok inner) /\ strip inner = lcsc_id.

(** *** [process_single_part] *)

Definition get_url : E W string := fun w => (w, Ok (page_url P w)).

Definition sleep (ms : Z) : E W unit := wait_for_timeout P ms.

(** Step 3: the storage location; any failure is logged and ignored.
    An absent [id] is formatted as [None] by the f-string. *)
Definition select_storage_location : E W unit :=
  try_except
    (let storage_select :=
       Last (Css (Raw "select[name*=[partLots]][name*=[storage_location]]")) in
     do storage_id <- get_attribute P storage_select "id";
     let storage_control :=
       Css (Raw ("#" +:+ default "None" storage_id +:+ " + .ts-wrapper .ts-control")) in
     run click P storage_control;
     run sleep 2000;
     let unspecified_option :=
       First (HasText (Css (Raw ".ts-dropdown .option")) "Unspecified") in
     run click P unspecified_option;
     sleep 1000)
    (ret tt).

(** [f"{parent} -> {leaf}" if parent else leaf] *)
Definition category_label (parent leaf : string) : string :=
  if truthy parent then parent +:+ " -> " +:+ leaf else leaf.

(** Step 6: the category named by the help text; empty when the help text
    does not show up in time. *)
Definition read_category : E W string :=
  try_except_timeout
    (do help_text <- inner_text P (Css SELECTOR_HELP_TEXT);
     let '(parent, leaf) := parse_lcsc_category help_text in
     ret (category_label parent leaf))
    (ret EmptyString).

(** Step 7: clear a category that is already selected. *)
Definition clear_category : E W unit :=
  try_except
    (let clear_button := Css (Raw "#part_base_category + .ts-wrapper .clear-button") in
     do visible <- is_visible P clear_button;
     if visible then (run click P clear_button; sleep 1000) else ret tt)
    (ret tt).

(** Step 10: the first option whose text equals the category, case
    ignored. *)
Fixpoint find_exact_match (lcsc_category : string) (options : list locator)
    : E W (option locator) :=
  match options with
  | [] => ret None
  | option :: rest =>
      do inner <- inner_text P option;
      let text := strip inner in
      if String.eqb (lower text) (lower lcsc_category) then ret (Some option)
      else find_exact_match lcsc_category rest
  end.

(** Steps 8 to 10: type the category and pick or create it. *)
Definition choose_category (lcsc_category : string) : E W unit :=
  if truthy lcsc_category then
    run click P (Css SELECTOR_CATEGORY_CONTROL);
    run sleep 500;
    let ts_input := Css (Raw "#part_base_category + .ts-wrapper .ts-control input") in
    run fill P ts_input lcsc_category;
    run sleep 1500;
    try_except_timeout
      (run wait_for_selector P SELECTOR_OPTION 2000;
       do options <- all (Css SELECTOR_OPTION);
       do exact_match <- find_exact_match lcsc_category options;
       match exact_match with
       | Some option => click P option
       | None =>
           try_except (click P (First (Css SELECTOR_CREATE)))
                      (press P ts_input "Enter")
       end)
      (press P ts_input "Enter")
  else ret tt.

(** The creation flow: what [process_single_part] does inside its [try]
    once the part is known not to exist. *)
Definition create_part (lcsc_id : string) (amount : Z) : E W string :=
  run goto P (CreateUrl lcsc_id);
  do current <- get_url;
  if contains "/login" current then ret "failed" else
  do ready <- try_except_timeout
                (run wait_for_selector P SELECTOR_STOCKS_TAB 10000; ret true)
                (ret false);
  if negb ready then ret "failed" else
  run click P (Css SELECTOR_STOCKS_TAB);
  run sleep 1000;
  run click P (HasText (Sub (Css (Raw "#part_lots")) SELECTOR_ADD_STOCK) "Add stock");
  run sleep 1000;
  run select_storage_location;
  do entered <- try_except
                  (let amount_input :=
                     Last (Css (Raw "input[name*=[partLots]][name*=[amount][value]]")) in
                   run fill P amount_input (pretty amount); ret true)
                  (ret false);
  if negb entered then ret "failed" else
  run click P (Css SELECTOR_COMMON_TAB);
  run sleep 1000;
  do lcsc_category <- read_category;
  run clear_category;
  run choose_category lcsc_category;
  run click P (Css SELECTOR_SAVE);
  run wait_for_load_state P 10000;
  ret "success".

(** [take_error_screenshot]: a failure to save it is logged only. *)
Definition take_error_screenshot (lcsc_id : string) (w : W) : W :=
  fst (screenshot P lcsc_id w).

(** The body of the [try] of [process_single_part]. *)
Definition process_single_part_body (lcsc_id : string) (amount : Z) : E W string :=
  do found <- (fun w => let '(w', b) := check_part_exists lcsc_id w in (w', Ok b));
  if found then ret "skipped" else create_part lcsc_id amount.

(** [process_single_part]: returns a status and never raises. *)
Definition process_single_part (lcsc_id : string) (amount : Z) (w : W)
    : W * string :=
  match process_single_part_body lcsc_id amount w with
  | (w', Ok status) => (w', status)
  | (w', Err _) => (take_error_screenshot lcsc_id w', "failed")
  end.

(** *** [import_parts] *)

(** The counters and the list that [__init__] sets up. *)
Record tallies : Type := {
  success_count : Z;
  fail_count : Z;
  skipped_count : Z;
  failed_parts : list string
}.

Definition init_tallies : tallies :=
  {| success_count := 0; fail_count := 0; skipped_count := 0;
     failed_parts := [] |}.

(** The [if]/[elif]/[else] on the status of one part. *)
Definition tally (t : tallies) (lcsc_id status : string) : tallies :=
  if String.eqb status "success" then
    {| success_count := success_count t + 1; fail_count := fail_count t;
       skipped_count := skipped_count t; failed_parts := failed_parts t |}
  else if String.eqb status "skipped" then
    {| success_count := success_count t; fail_count := fail_count t;
       skipped_count := skipped_count t + 1; failed_parts := failed_parts t |}
  else
    {| success_count := success_count t; fail_count := fail_count t + 1;
       skipped_count := skipped_count t;
       failed_parts := failed_parts t ++ [lcsc_id] |}.

(** The loop of [import_parts]; the progress bar is left out. *)
Fixpoint import_parts (parts : list (string * Z)) (w : W) (t : tallies)
    : W * tallies :=
  match parts with
  | [] => (w, t)
  | (lcsc_id, amount) :: rest =>
      let '(w', status) := process_single_part lcsc_id amount w in
      import_parts rest w' (tally t lcsc_id status)
  end.

(** The statuses that the successive calls of [process_single_part] in
    that loop return, one per part. *)
Fixpoint outcomes (parts : list (string * Z)) (w : W) : list string :=
  match parts with
  | [] => []
  | (lcsc_id, amount) :: rest =>
      let '(w', status) := process_single_part lcsc_id amount w in
      status :: outcomes rest w'
  end.

(** *** [authenticate], [cleanup] and [main] *)

Definition authenticate (w : W) : W * flow unit :=
  match (run launch P; run goto P LoginUrl; prompt_enter P) w with
  | (w1, Err e) => (w1, Raised e)
  | (w1, Ok _) =>
      match goto P AccountUrl w1 with
      | (w2, Err PlaywrightTimeout) => (w2, SysExit 1)
      | (w2, Err e) => (w2, Raised e)
      | (w2, Ok _) =>
          if contains "/login" (page_url P w2) then (w2, SysExit 1)
          else
            match wait_for_selector P (Raw "main, .content, body") 5000 w2 with
            | (w3, Err PlaywrightTimeout) => (w3, SysExit 1)
            | (w3, Err e) => (w3, Raised e)
            | (w3, Ok _) => (w3, Done tt)
            end
      end
  end.

(** [cleanup]: closing the browser; the summary is only logged. *)
Definition cleanup : E W unit := close_browser P.

(** The handler [except Exception] of [main]: [cleanup], then
    [sys.exit(1)]; when [cleanup] itself raises the interpreter ends with
    status 1 as well. *)
Definition fatal (w : W) : W * Z := (fst (cleanup w), 1).

(** The [try] block of [main] with its handler for [Exception], that
    is [main] once [parser.parse_args()] has returned, on the world [w]
    and the rows of the CSV file, [None] when the file does not exist:
    the final world and the exit status of the process.  Interrupts from
    the keyboard are not modelled. *)
Definition main (file : option (list (list string))) (w : W) : W * Z :=
  match authenticate w with
  | (w1, SysExit code) => (w1, code)
  | (w1, Raised _) => fatal w1
  | (w1, Done _) =>
      match file with
      | None => (w1, 1)
      | Some rows =>
          let parts := fst (load_parts_csv rows) in
          match parts with
          | [] => (w1, 1)
          | _ =>
              let '(w2, _) := import_parts parts w1 init_tallies in
              match cleanup w2 with
              | (w3, Ok _) => (w3, 0)
              | (w3, Err _) => fatal w3
              end
          end
      end
  end.

(** [main] from its first statement.  [parser.parse_args()] runs before
    the [try]: on a usage error it ends the process with status 2, after
    printing the help with status 0, and nothing has been done on the
    page.  [files] gives the rows of the CSV file at a path, if the file
    exists. *)
Definition main_with_args (args : parse_args_result)
    (files : string -> option (list (list string))) (w : W) : W * Z :=
  match args with
  | Namespace csv_path _ _ => main (files csv_path) w
  | UsageError => (w, 2)
  | HelpPrinted => (w, 0)
  end.

End WithPage.
End Run.

(** ** A static site

    A page double for concrete runs: each address shows a fixed list of
    anchors, given as pairs of [href] and text; navigation to an address
    marked as broken raises.  As in Playwright, a locator is resolved
    against the page shown at the moment of the action. *)

Module StaticSite.
Import Page.

Record site : Type := {
  anchors : url -> list (string * string);
  broken : url -> bool
}.

(** The world: the address shown, if any. *)
Definition world : Type := option url.

Definition shown (s : site) (w : world) : list (string * string) :=
  match w with Some u => anchors s u | None => [] end.

Definition selects (subs : list string) (a : string * string) : bool :=
  forallb (fun sub => contains sub a.1) subs.

Fixpoint resolve (l : locator) (page : list (string * string))
    : list (string * string) :=
  match l with
  | Css (AnchorHref subs) => List.filter (selects subs) page
  | Css (Raw _) => []
  | Sub _ _ => []
  | HasText _ _ => []
  | First l' => take 1 (resolve l' page)
  | Last l' => match List.rev (resolve l' page) with a :: _ => [a] | [] => [] end
  | Nth l' i => match resolve l' page !! i with Some a => [a] | None => [] end
  end.

(** An action on one element: it times out when there is none. *)
Definition the_element (s : site) (l : locator) (w : world)
    : result (string * string) :=
  match resolve l (shown s w) with
  | [a] => Ok a
  | [] => Err PlaywrightTimeout
  | _ => Err PlaywrightError
  end.

Definition static_ops (s : site) : ops world := {|
  launch := ret tt;
  prompt_enter := ret tt;
  goto := fun u w => if broken s u then (w, Err PlaywrightError) else (Some u, Ok tt);
  page_url := fun w => match w with Some u => url_string "" u | None => "about:blank" end;
  count := fun l w => (w, Ok (length (resolve l (shown s w))));
  get_attribute := fun l name w =>
    match the_element s l w with
    | Ok a => (w, Ok (if String.eqb name "href" then Some a.1 else None))
    | Err e => (w, Err e)
    end;
  inner_text := fun l w =>
    match the_element s l w with
    | Ok a => (w, Ok a.2)
    | Err e => (w, Err e)
    end;
  wait_for_selector := fun _ _ => ret tt;
  wait_for_timeout := fun _ => ret tt;
  wait_for_load_state := fun _ => ret tt;
  click := fun _ => ret tt;
  fill := fun _ _ => ret tt;
  press := fun _ _ => ret tt;
  is_visible := fun _ => ret false;
  screenshot := fun _ => ret tt;
  close_browser := ret tt
|}.

(** The elements that [a[href*="lcsc.com"][href*="{lcsc_id}"]] finds. *)
Definition supplier_links (lcsc_id : string) (page : list (string * string))
    : list (string * string) :=
  List.filter (selects ["lcsc.com"; lcsc_id]) page.

(** A catalog with one part, number 8, found by every search; its page
    of suppliers shows [links].  The creation page of C3 and the search
    for C7 cannot be loaded. *)
Definition catalog (links : list (string * string)) : site := {|
  anchors := fun u =>
    match u with
    | SearchUrl _ => [("/en/part/8/info", "A part")]
    | SuppliersUrl part_id => if String.eqb part_id "8" then links else []
    | _ => []
    end;
  broken := fun u =>
    match u with
    | CreateUrl lcsc_id => String.eqb lcsc_id "C3"
    | SearchUrl keyword => String.eqb keyword "C7"
    | _ => false
    end
|}.

(** The run of five of the specification: the third request fails on a
    page that cannot be loaded, the fourth one exists already. *)
Definition five_parts : list (string * Z) :=
  [("C1", 1); ("C2", 1); ("C3", 1); ("C19915", 1); ("C5", 2)].

Definition five_catalog : site :=
  catalog [("https://www.lcsc.com/product-detail/C19915.html", "C19915")].

(** A catalog where every search finds two parts, number 8 and then
    number 9.  The suppliers of part 8 show a link to lcsc.com with the
    text C19915, those of part 9 one with the text C1991; no page fails
    to load. *)
Definition two_results : site := {|
  anchors := fun u =>
    match u with
    | SearchUrl _ =>
        [("/en/part/8/info", "First part"); ("/en/part/9/info", "Second part")]
    | SuppliersUrl part_id =>
        if String.eqb part_id "8"
        then [("https://www.lcsc.com/product-detail/C19915.html", "C19915")]
        else if String.eqb part_id "9"
        then [("https://www.lcsc.com/product-detail/C1991.html", "C1991")]
        else []
    | _ => []
    end;
  broken := fun _ => false
|}.

End StaticSite.

(** ** The claims of the specification, as definitions

    These follow the words of the specification, not the code; the
    theorems below compare them with the code. *)

Module Spec.

(** The letter C followed by one or more digits. *)
Definition lcsc_pattern (s : string) : bool :=
  match s with
  | String c ds => Ascii.eqb c "C" && negb (is_empty ds) && all_chars is_digit ds
  | EmptyString => false
  end.

(** A row yields a request when it has exactly two fields, the first one
    matches the pattern after trimming and the second one parses as an
    integer after trimming. *)
Definition row_request (row : list string) : option (string * Z) :=
  match row with
  | [f0; f1] =>
      if lcsc_pattern (strip f0) then
        n ← py_int (strip f1); Some (strip f0, n)
      else None
  | _ => None
  end.

(** One segment gives the leaf alone; more than one give the first as
    parent and the last as leaf. *)
Definition path (segments : list string) : string * string :=
  match segments with
  | [segment] => (EmptyString, segment)
  | _ => (List.hd EmptyString segments, List.last segments EmptyString)
  end.

(** The category path as the specification words it: the remainder after
    the marker, split on the separator, each segment trimmed. *)
Definition category_path (text : string) : string * string :=
  match after_first "Provider:" text with
  | None => (EmptyString, EmptyString)
  | Some remainder =>
      path (map strip (split_arrow remainder))
  end.

(** The category path with the remainder read as the code reads it: the
    first line of what follows the marker and the white space after it. *)
Definition category_line_path (text : string) : string * string :=
  match after_first "Provider:" text with
  | None => (EmptyString, EmptyString)
  | Some remainder =>
      path (map strip (split_arrow (strip (take_line (lstrip remainder)))))
  end.

(** A row of the export has both named fields non-blank after trimming. *)
Definition both_fields (d : gmap string (option string)) : option (string * string) :=
  match d !! "LCSC Part Number", d !! "Quantity" with
  | Some (Some a), Some (Some b) =>
      if truthy (strip a) && truthy (strip b) then Some (strip a, strip b) else None
  | _, _ => None
  end.

(** The line the specification asks for a row: none for a blank row or a
    row that lacks one of the two fields. *)
Definition row_line (fieldnames row : list string) : option string :=
  match row with
  | [] => None
  | _ => (fun p => Extractor.line p.1 p.2) <$> both_fields (Extractor.dict_row fieldnames row)
  end.

(** No cell of the two named columns is [None]: the row is at least as
    long as the header up to these columns. *)
Definition cells_present (d : gmap string (option string)) : Prop :=
  d !! "LCSC Part Number" <> Some None /\ d !! "Quantity" <> Some None.

(** A status that is neither of the two good ones counts as failed. *)
Definition is_failed (status : string) : bool :=
  negb (String.eqb status "success") && negb (String.eqb status "skipped").

(** The tallies after a list of identifiers with their statuses. *)
Definition tally_all (t : Run.tallies) (l : list (string * string)) : Run.tallies :=
  foldl (fun t p => Run.tally t p.1 p.2) t l.

(** The number of parts tallied. *)
Definition total (t : Run.tallies) : Z :=
  Run.success_count t + Run.skipped_count t + Run.fail_count t.

(** The identifiers whose status is neither of the two good ones. *)
Definition failed_ids (l : list (string * string)) : list string :=
  (List.filter (fun p => is_failed p.2) l).*1.

End Spec.

(** ** Notions used to state further properties *)

Module Notions.

(** The cells of a row entered under the names of their columns. *)
Definition fill_cells (m : gmap string (option string)) (kvs : list (string * string))
    : gmap string (option string) :=
  foldl (fun m kv => <[kv.1 := Some kv.2]> m) m kvs.

(** The columns that a short row does not reach, bound to [None]. *)
Definition fill_none (m : gmap string (option string)) (ks : list string)
    : gmap string (option string) :=
  foldl (fun m k => <[k := None]> m) m ks.

(** The dictionary of a row, from any starting dictionary. *)
Definition dict_from (m : gmap string (option string)) (fieldnames row : list string)
    : gmap string (option string) :=
  fill_none (fill_cells m (zip fieldnames row)) (drop (length row) fieldnames).

(** A line as the extractor writes it: two non-empty trimmed fields. *)
Definition well_formed_line (l : string) : Prop :=
  exists lcsc qty, l = Extractor.line lcsc qty /\ lcsc <> EmptyString /\ qty <> EmptyString
                   /\ strip lcsc = lcsc /\ strip qty = qty.

(** A component of a category path: trimmed and free of the separator. *)
Definition clean_component (x : string) : Prop :=
  strip x = x /\ contains "->" x = false.

End Notions.

(** ** Facts on the string primitives *)

Module PyStrFacts.

Lemma is_empty_true (s : string) : is_empty s = true <-> s = EmptyString.
Proof. destruct s; simpl; split; congruence. Qed.

Lemma rstrip_empty (s : string) :
  rstrip s = EmptyString <-> all_chars is_space s = true.
Proof.
  induction s as [|c s IH]; simpl; [tauto|].
  destruct (is_space c); simpl.
  - destruct (is_empty (rstrip s)) eqn:E.
    + apply is_empty_true in E. tauto.
    + split; [discriminate|]. intros H. apply IH in H. rewrite H in E. discriminate.
  - split; discriminate.
Qed.

Lemma all_space_lstrip (s : string) :
  all_chars is_space (lstrip s) = all_chars is_space s.
Proof.
  induction s as [|c s IH]; simpl; [reflexivity|].
  destruct (is_space c) eqn:E; simpl; [exact IH|]. rewrite E. reflexivity.
Qed.

Lemma strip_empty (s : string) :
  strip s = EmptyString <-> all_chars is_space s = true.
Proof. unfold strip. rewrite rstrip_empty, all_space_lstrip. tauto. Qed.

Lemma rstrip_ends (s : string) : ends_in_space (rstrip s) = false.
Proof.
  induction s as [|c s IH]; simpl; [reflexivity|].
  destruct (is_space c) eqn:E; simpl.
  - destruct (rstrip s) eqn:R; simpl; [reflexivity|]. exact IH.
  - destruct (rstrip s) eqn:R; simpl; [exact E|]. exact IH.
Qed.

Lemma strip_ends (s : string) : ends_in_space (strip s) = false.
Proof. apply rstrip_ends. Qed.

Lemma append_cons (c : ascii) (p x : string) :
  String c p +:+ x = String c (p +:+ x).
Proof. reflexivity. Qed.

Lemma prefix_skip (p s : string) :
  String.prefix p s = true -> s = p +:+ skip (String.length p) s.
Proof.
  revert s. induction p as [|c p IH]; intros s H; [reflexivity|].
  destruct s as [|d s]; [discriminate|].
  simpl in H. destruct (ascii_dec c d) as [->|]; [|discriminate].
  simpl. rewrite append_cons. f_equal. apply IH, H.
Qed.

Lemma is_space_newline : is_space newline = true.
Proof. reflexivity. Qed.

Ltac unf :=
  cbn [all_chars take_line lstrip rstrip Importer.spaces_then_group is_empty
       andb orb negb].

Lemma only_newlines_cons (c : ascii) (s : string) :
  all_chars (Ascii.eqb newline) (String c s) = true ->
  c = newline /\ all_chars (Ascii.eqb newline) s = true.
Proof.
  unf. intros H. apply andb_prop in H as [H1 H2].
  apply Ascii.eqb_eq in H1. auto.
Qed.

Lemma take_line_only_newlines (s : string) :
  all_chars (Ascii.eqb newline) s = true -> take_line s = EmptyString.
Proof.
  destruct s as [|c s]; [reflexivity|].
  intros H. apply only_newlines_cons in H as [-> _]. reflexivity.
Qed.

Lemma lstrip_only_newlines (s : string) :
  all_chars (Ascii.eqb newline) s = true -> lstrip s = EmptyString.
Proof.
  induction s as [|c s IH]; [reflexivity|].
  intros H. apply only_newlines_cons in H as [-> H]. unf.
  rewrite is_space_newline. auto.
Qed.

End PyStrFacts.

(** ** Facts on the category parser *)

Module CategoryFacts.
Import Importer PyStrFacts.

(** When [\s*(.+)] fails, only line feeds follow. *)
Lemma spaces_then_group_none (s : string) :
  spaces_then_group s = None -> all_chars (Ascii.eqb newline) s = true.
Proof.
  induction s as [|c s IH]; [reflexivity|].
  unf. unfold dot_plus. unf. rewrite (Ascii.eqb_sym newline c).
  destruct (is_space c) eqn:Sp.
  - destruct (spaces_then_group s); [done|].
    destruct (Ascii.eqb c newline); unf; [intros _; apply IH; reflexivity|done].
  - destruct (Ascii.eqb_spec c newline) as [->|]; unf; [|done].
    rewrite is_space_newline in Sp. done.
Qed.

(** When [\s*(.+)] matches, group 1 trims to the trimmed first line of
    what follows the leading white space. *)
Lemma spaces_then_group_some (s g : string) :
  spaces_then_group s = Some g -> strip g = strip (take_line (lstrip s)).
Proof.
  revert g. induction s as [|c s IH]; intros g; [done|].
  unf. destruct (is_space c) eqn:Sp.
  - destruct (spaces_then_group s) as [g'|] eqn:G.
    + intros [= <-]. apply IH. reflexivity.
    + apply spaces_then_group_none in G.
      unfold dot_plus. unf. destruct (Ascii.eqb c newline); unf; [done|].
      intros [= <-]. rewrite (take_line_only_newlines _ G), (lstrip_only_newlines _ G).
      unfold strip. unf. rewrite Sp. reflexivity.
  - unfold dot_plus. unf. destruct (Ascii.eqb c newline); unf; [done|].
    intros [= <-]. reflexivity.
Qed.

Lemma prefix_marker_newline (s : string) :
  String.prefix Importer.marker (String newline s) = false.
Proof. reflexivity. Qed.

Lemma re_search_only_newlines (s : string) :
  all_chars (Ascii.eqb newline) s = true -> re_search_provider s = None.
Proof.
  induction s as [|c s IH]; [reflexivity|].
  intros H. apply only_newlines_cons in H as [-> H].
  cbn [re_search_provider]. rewrite prefix_marker_newline. auto.
Qed.

Lemma re_search_after_marker (r : string) :
  all_chars (Ascii.eqb newline) r = true ->
  re_search_provider ("rovider:" +:+ r) = None.
Proof.
  intros H. apply re_search_only_newlines in H.
  repeat rewrite append_cons.
  repeat (cbn [re_search_provider];
          match goal with
          | |- context [String.prefix marker (String ?a ?x)] =>
              change (String.prefix marker (String a x)) with false
          end).
  exact H.
Qed.

(** The search in closed form: what follows the first marker decides. *)
Lemma re_search_closed {A : Type} (f : string -> A) (s : string) :
  match re_search_provider s with
  | Some g => f (strip g)
  | None => f EmptyString
  end
  = match after_first marker s with
    | Some r => f (strip (take_line (lstrip r)))
    | None => f EmptyString
    end.
Proof.
  induction s as [|c s IH].
  - reflexivity.
  - cbn [re_search_provider after_first].
    destruct (String.prefix marker (String c s)) eqn:Pre.
    + destruct (spaces_then_group _) as [g|] eqn:G.
      * rewrite (spaces_then_group_some _ _ G). reflexivity.
      * apply spaces_then_group_none in G.
        pose proof (prefix_skip _ _ Pre) as Eq.
        revert G Eq. generalize (skip (String.length marker) (String c s)) as r.
        intros r G Eq. unfold marker in Eq. rewrite append_cons in Eq.
        injection Eq as _ ->.
        rewrite (re_search_after_marker _ G).
        rewrite (lstrip_only_newlines _ G). reflexivity.
    + exact IH.
Qed.

Lemma path_of_segments_spec (l : list string) :
  path_of_segments l = Spec.path l.
Proof. reflexivity. Qed.

Lemma parse_lcsc_category_closed (text : string) :
  parse_lcsc_category text = Spec.category_line_path text.
Proof.
  unfold parse_lcsc_category, Spec.category_line_path.
  exact (re_search_closed (fun ct => path_of_segments (map strip (split_arrow ct))) text).
Qed.

Lemma prefix_arrow (s : string) : String.prefix "->" s = starts_arrow s.
Proof.
  destruct s as [|c [|d s]]; cbn [String.prefix starts_arrow].
  - reflexivity.
  - destruct (ascii_dec "-" c); destruct (Ascii.eqb_spec c "-"); congruence.
  - destruct (ascii_dec "-" c); destruct (Ascii.eqb_spec c "-"); try congruence;
    destruct (ascii_dec ">" d); destruct (Ascii.eqb_spec d ">"); simpl; try congruence.
    destruct s; reflexivity.
Qed.

Lemma contains_arrow_cons (c : ascii) (s : string) :
  contains "->" (String c s) = starts_arrow (String c s) || contains "->" s.
Proof. cbn [contains]. rewrite prefix_arrow. reflexivity. Qed.

Lemma no_arrow_tail (c : ascii) (s : string) :
  contains "->" (String c s) = false -> contains "->" s = false.
Proof. rewrite contains_arrow_cons. intros H. apply orb_false_elim in H. tauto. Qed.

Lemma no_arrow_skip (n : nat) (s : string) :
  contains "->" s = false -> contains "->" (skip n s) = false.
Proof.
  revert s. induction n as [|n IH]; intros s H; [destruct s; exact H|].
  destruct s as [|c s]; [exact H|]. cbn [skip]. eauto using no_arrow_tail.
Qed.

Lemma no_arrow_after_first (sub s r : string) :
  after_first sub s = Some r -> contains "->" s = false -> contains "->" r = false.
Proof.
  revert r. induction s as [|c s IH]; intros r; cbn [after_first].
  - destruct (String.prefix sub ""); [|done]. intros [= <-] H. by apply no_arrow_skip.
  - destruct (String.prefix sub (String c s)).
    + intros [= <-] H. by apply no_arrow_skip.
    + intros H1 H2. eauto using no_arrow_tail.
Qed.

Lemma no_arrow_lstrip (s : string) :
  contains "->" s = false -> contains "->" (lstrip s) = false.
Proof.
  induction s as [|c s IH]; [done|]. intros H. cbn [lstrip].
  destruct (is_space c); [|exact H]. eauto using no_arrow_tail.
Qed.

(** A function that keeps a prefix of its argument cannot bring in an
    arrow. *)
Lemma no_arrow_prefix (f : string -> string) :
  f EmptyString = EmptyString ->
  (forall c s, f (String c s) = EmptyString \/ f (String c s) = String c (f s)) ->
  forall s, contains "->" s = false -> contains "->" (f s) = false.
Proof.
  intros F0 FS s. induction s as [|c s IH]; intros H.
  - rewrite F0. reflexivity.
  - destruct (FS c s) as [->| ->]; [reflexivity|].
    rewrite contains_arrow_cons in *. apply orb_false_elim in H as [H1 H2].
    rewrite (IH H2), orb_false_r.
    destruct s as [|d s]; [rewrite F0; destruct (f ""); reflexivity|].
    destruct (FS d s) as [E|E]; rewrite E; [reflexivity|exact H1].
Qed.

Lemma no_arrow_take_line (s : string) :
  contains "->" s = false -> contains "->" (take_line s) = false.
Proof.
  apply (no_arrow_prefix take_line); [reflexivity|].
  intros c s'. cbn [take_line]. destruct (Ascii.eqb c newline); auto.
Qed.

Lemma no_arrow_rstrip (s : string) :
  contains "->" s = false -> contains "->" (rstrip s) = false.
Proof.
  apply (no_arrow_prefix rstrip); [reflexivity|].
  intros c s'. cbn [rstrip]. destruct (is_space c && is_empty (rstrip s')); auto.
Qed.

Lemma no_arrow_strip (s : string) :
  contains "->" s = false -> contains "->" (strip s) = false.
Proof. intros H. apply no_arrow_rstrip, no_arrow_lstrip, H. Qed.

Lemma split_arrow_no_arrow (s : string) :
  contains "->" s = false -> split_arrow s = [s].
Proof.
  induction s as [|c s IH]; [reflexivity|].
  rewrite contains_arrow_cons. intros H. apply orb_false_elim in H as [H1 H2].
  cbn [split_arrow]. rewrite (IH H2).
  cbn [starts_arrow] in H1.
  destruct (Ascii.eqb c "-"); [|reflexivity].
  destruct s as [|d s]; [reflexivity|].
  simpl in H1. rewrite H1. reflexivity.
Qed.

Lemma parent_empty_without_arrow (text : string) :
  contains "->" text = false -> (parse_lcsc_category text).1 = EmptyString.
Proof.
  intros H. rewrite parse_lcsc_category_closed. unfold Spec.category_line_path.
  destruct (after_first "Provider:" text) as [r|] eqn:A; [|reflexivity].
  rewrite split_arrow_no_arrow; [reflexivity|].
  apply no_arrow_strip, no_arrow_take_line, no_arrow_lstrip.
  eapply no_arrow_after_first; eauto.
Qed.

Lemma split_arrow_nonempty (s : string) : split_arrow s <> [].
Proof.
  induction s as [|c s IH]; [done|]. cbn [split_arrow].
  destruct (split_arrow s) eqn:E; [done|].
  destruct (Ascii.eqb c "-"); [|done].
  destruct s as [|d s']; [done|]. destruct (Ascii.eqb d ">"); done.
Qed.

Lemma path_leaf (l : list string) : (Spec.path l).2 = List.last l EmptyString.
Proof. destruct l as [|a [|b l]]; reflexivity. Qed.

Lemma last_map_strip (l : list string) :
  List.last (map strip l) EmptyString = strip (List.last l EmptyString).
Proof.
  induction l as [|a [|b l] IH]; try reflexivity.
  change (List.last (map strip (b :: l)) "" = strip (List.last (b :: l) "")). exact IH.
Qed.

Lemma leaf_of_marked_text (text r : string) :
  after_first "Provider:" text = Some r ->
  (parse_lcsc_category text).2
  = strip (List.last (split_arrow (strip (take_line (lstrip r)))) EmptyString).
Proof.
  intros A. rewrite parse_lcsc_category_closed. unfold Spec.category_line_path.
  rewrite A, path_leaf, last_map_strip. reflexivity.
Qed.

End CategoryFacts.

(** ** Facts on the request parser *)

Module RequestFacts.
Import Importer PyStrFacts.

Lemma at_end_space (s : string) :
  ends_in_space s = false -> at_end s = is_empty s.
Proof.
  destruct s as [|c [|d s]]; try reflexivity.
  cbn [ends_in_space at_end is_empty]. intros H.
  destruct (Ascii.eqb_spec c newline) as [->|]; [|reflexivity].
  rewrite is_space_newline in H. done.
Qed.

Lemma ends_in_space_tail (c d : ascii) (s : string) :
  ends_in_space (String c (String d s)) = ends_in_space (String d s).
Proof. reflexivity. Qed.

(** On a text that does not end in white space, [\d+$] accepts exactly
    the non-empty runs of digits. *)
Lemma digits_then_end_trimmed (s : string) :
  ends_in_space s = false ->
  digits_then_end s = negb (is_empty s) && all_chars is_digit s.
Proof.
  induction s as [|c s IH]; [reflexivity|].
  intros H. cbn [digits_then_end is_empty negb all_chars andb].
  destruct s as [|d s].
  - cbn. destruct (is_digit c); reflexivity.
  - rewrite ends_in_space_tail in H. rewrite (IH H), (at_end_space _ H).
    cbn [is_empty negb andb]. rewrite orb_false_r. reflexivity.
Qed.

Lemma re_match_lcsc_id_trimmed (s : string) :
  ends_in_space s = false -> re_match_lcsc_id s = Spec.lcsc_pattern s.
Proof.
  destruct s as [|c s]; [reflexivity|]. intros H.
  unfold re_match_lcsc_id, Spec.lcsc_pattern.
  destruct s as [|d s].
  - cbn. rewrite andb_false_r. reflexivity.
  - rewrite ends_in_space_tail in H. rewrite (digits_then_end_trimmed _ H).
    rewrite andb_assoc. reflexivity.
Qed.

Lemma load_row_request (row : list string) (p : string * Z) :
  load_row row = inr p <-> Spec.row_request row = Some p.
Proof.
  unfold load_row, Spec.row_request.
  destruct row as [|f0 [|f1 [|f2 row]]]; try (split; discriminate).
  rewrite (re_match_lcsc_id_trimmed _ (strip_ends f0)).
  destruct (Spec.lcsc_pattern (strip f0)); [|split; discriminate].
  destruct (py_int (strip f1)) as [n|]; simpl; [|split; discriminate].
  split; congruence.
Qed.

Lemma load_row_dropped (row : list string) :
  (exists d, load_row row = inl d) <-> Spec.row_request row = None.
Proof.
  destruct (load_row row) as [d|p] eqn:L.
  - split; [intros _|eauto].
    destruct (Spec.row_request row) as [p|] eqn:R; [|reflexivity].
    apply load_row_request in R. congruence.
  - apply load_row_request in L. rewrite L. split; [intros [d D]|]; discriminate.
Qed.

Lemma row_kept_or_dropped_l (row : list string) (d : diagnostic) :
  load_row row = inl d -> row_diagnostic row = Some d.
Proof. unfold row_diagnostic. by intros ->. Qed.

Lemma row_part_dropped (row : list string) (d : diagnostic) :
  load_row row = inl d -> row_part row = None.
Proof. unfold row_part. by intros ->. Qed.

Lemma row_part_kept (row : list string) (p : string * Z) :
  load_row row = inr p -> row_part row = Some p.
Proof. unfold row_part. by intros ->. Qed.

Lemma row_kept_or_dropped_r (row : list string) (p : string * Z) :
  load_row row = inr p -> row_diagnostic row = None.
Proof. unfold row_diagnostic. by intros ->. Qed.

Lemma omap_cons {A B : Type} (f : A -> option B) (x : A) (l : list A) :
  omap f (x :: l)
  = match f x with Some y => y :: omap f l | None => omap f l end.
Proof. reflexivity. Qed.

Lemma load_parts_csv_fold (rows : list (list string)) (parts : list (string * Z))
    (log : list diagnostic) :
  foldl (fun '(parts, log) row =>
           match load_row row with
           | inr p => (parts ++ [p], log)
           | inl d => (parts, log ++ [d])
           end) (parts, log) rows
  = (parts ++ omap row_part rows, log ++ omap row_diagnostic rows).
Proof.
  revert parts log. induction rows as [|row rows IH]; intros parts log.
  - simpl. rewrite !app_nil_r. reflexivity.
  - cbn [foldl]. rewrite !omap_cons.
    destruct (load_row row) as [d|p] eqn:L.
    + rewrite (row_kept_or_dropped_l _ _ L), (row_part_dropped _ _ L).
      rewrite IH, <- app_assoc. reflexivity.
    + rewrite (row_part_kept _ _ L), (row_kept_or_dropped_r _ _ L).
      rewrite IH, <- app_assoc. reflexivity.
Qed.

Lemma load_parts_csv_rows (rows : list (list string)) :
  load_parts_csv rows = (omap row_part rows, omap row_diagnostic rows).
Proof. apply (load_parts_csv_fold rows [] []). Qed.

Lemma row_part_request (row : list string) : row_part row = Spec.row_request row.
Proof.
  unfold row_part. destruct (load_row row) as [d|p] eqn:L.
  - symmetry. apply load_row_dropped. eauto.
  - symmetry. apply load_row_request, L.
Qed.

Lemma load_parts_csv_requests (rows : list (list string)) :
  (load_parts_csv rows).1 = omap Spec.row_request rows.
Proof.
  rewrite load_parts_csv_rows. simpl.
  induction rows as [|row rows IH]; [reflexivity|].
  rewrite !omap_cons, row_part_request, IH. reflexivity.
Qed.

Lemma load_parts_csv_cons (row : list string) (rows : list (list string)) :
  load_parts_csv (row :: rows)
  = match load_row row with
    | inr p => (p :: (load_parts_csv rows).1, (load_parts_csv rows).2)
    | inl d => ((load_parts_csv rows).1, d :: (load_parts_csv rows).2)
    end.
Proof.
  rewrite !load_parts_csv_rows. rewrite !omap_cons. cbn [fst snd].
  destruct (load_row row) as [d|p] eqn:L.
  - rewrite (row_kept_or_dropped_l _ _ L), (row_part_dropped _ _ L). reflexivity.
  - rewrite (row_part_kept _ _ L), (row_kept_or_dropped_r _ _ L). reflexivity.
Qed.

Lemma load_parts_csv_counts (rows : list (list string)) :
  (length (load_parts_csv rows).1 + length (load_parts_csv rows).2 = length rows)%nat.
Proof.
  induction rows as [|row rows IH]; [reflexivity|].
  rewrite load_parts_csv_cons. destruct (load_row row); simpl; lia.
Qed.

End RequestFacts.

(** ** Facts on the field extractor *)

Module ExtractorFacts.
Import Extractor.

Lemma extract_row_present (d : gmap string (option string)) :
  Spec.cells_present d ->
  extract_row d = Ok ((fun p => line p.1 p.2) <$> Spec.both_fields d).
Proof.
  intros [H1 H2]. unfold extract_row, Spec.both_fields, get.
  destruct (d !! "LCSC Part Number") as [[a|]|]; [|done|];
  destruct (d !! "Quantity") as [[b|]|]; try done; cbn [default from_option id];
  repeat match goal with
         | |- context [truthy (strip ?x)] => is_var x; destruct (truthy (strip x))
         end; reflexivity.
Qed.

Lemma write_rows_present (fieldnames : list string) (rows : list (list string))
    (out : list string) :
  Forall (fun row => row = [] \/ Spec.cells_present (dict_row fieldnames row)) rows ->
  write_rows fieldnames rows out = (out ++ omap (Spec.row_line fieldnames) rows, None).
Proof.
  intros H. revert out. induction H as [|row rows Hrow _ IH]; intros out.
  - simpl. rewrite app_nil_r. reflexivity.
  - rewrite RequestFacts.omap_cons. destruct row as [|f row].
    + simpl. apply IH.
    + destruct Hrow as [?|Hrow]; [done|].
      cbn [write_rows]. rewrite (extract_row_present _ Hrow).
      unfold Spec.row_line.
      destruct (Spec.both_fields _) as [p|]; cbn [fmap option_fmap option_map].
      * rewrite IH, <- app_assoc. reflexivity.
      * apply IH.
Qed.

End ExtractorFacts.

(** ** Facts on the page-driving functions *)

Module RunFacts.
Import Importer Page Run Spec.

Section Abstract.
Context {W : Type} (P : ops W).

Lemma check_part_exists_error (lcsc_id : string) (w w' : W) (e : exn) :
  check_part_exists_body P lcsc_id w = (w', Err e) ->
  check_part_exists P lcsc_id w = (w', false).
Proof. unfold check_part_exists. by intros ->. Qed.

Lemma process_after_error (lcsc_id : string) (amount : Z) (w w' : W) (e : exn) :
  check_part_exists_body P lcsc_id w = (w', Err e) ->
  process_single_part_body P lcsc_id amount w = create_part P lcsc_id amount w'.
Proof.
  intros H. unfold process_single_part_body, bind.
  rewrite (check_part_exists_error _ _ _ _ H). reflexivity.
Qed.

Ltac step :=
  match goal with
  | |- context [match ?x with _ => _ end] =>
      lazymatch x with
      | context [match _ with _ => _ end] => fail
      | _ => destruct x eqn:?
      end
  end.

Lemma create_part_status (lcsc_id : string) (amount : Z) (w w' : W) (st : string) :
  create_part P lcsc_id amount w = (w', Ok st) -> st = "failed" \/ st = "success".
Proof.
  unfold create_part, bind, ret, try_except, try_except_timeout, get_url.
  repeat (step; try discriminate); intros [= _ <-]; auto.
Qed.

Lemma process_single_part_status (lcsc_id : string) (amount : Z) (w : W) :
  let st := (process_single_part P lcsc_id amount w).2 in
  st = "success" \/ st = "skipped" \/ st = "failed".
Proof.
  unfold process_single_part.
  destruct (process_single_part_body P lcsc_id amount w) as [w' [st|e]] eqn:B;
    cbn [snd]; [|auto].
  unfold process_single_part_body, bind in B.
  destruct (check_part_exists P lcsc_id w) as [w1 [|]].
  - injection B as _ <-. auto.
  - apply create_part_status in B as [->| ->]; auto.
Qed.

End Abstract.

Lemma tally_total (t : tallies) (lcsc_id status : string) :
  total (tally t lcsc_id status) = total t + 1.
Proof.
  unfold tally, total.
  destruct (String.eqb status "success"); [simpl; lia|].
  destruct (String.eqb status "skipped"); simpl; lia.
Qed.

Lemma tally_fail_count (t : tallies) (lcsc_id status : string) :
  fail_count (tally t lcsc_id status)
  = fail_count t + (if is_failed status then 1 else 0).
Proof.
  unfold tally, is_failed.
  destruct (String.eqb status "success"); [simpl; lia|].
  destruct (String.eqb status "skipped"); simpl; lia.
Qed.

Lemma tally_failed_parts (t : tallies) (lcsc_id status : string) :
  failed_parts (tally t lcsc_id status)
  = failed_parts t ++ (if is_failed status then [lcsc_id] else []).
Proof.
  unfold tally, is_failed.
  destruct (String.eqb status "success"); [simpl; by rewrite app_nil_r|].
  destruct (String.eqb status "skipped"); simpl; [by rewrite app_nil_r|done].
Qed.

Lemma tally_success_count (t : tallies) (lcsc_id status : string) :
  success_count (tally t lcsc_id status)
  = success_count t + (if String.eqb status "success" then 1 else 0).
Proof.
  unfold tally.
  destruct (String.eqb status "success"); [simpl; lia|].
  destruct (String.eqb status "skipped"); simpl; lia.
Qed.

Lemma tally_skipped_count (t : tallies) (lcsc_id status : string) :
  skipped_count (tally t lcsc_id status)
  = skipped_count t + (if String.eqb status "skipped" then 1 else 0).
Proof.
  unfold tally.
  destruct (String.eqb_spec status "success") as [->|]; [simpl; lia|].
  destruct (String.eqb status "skipped"); simpl; lia.
Qed.

Lemma tally_all_total (l : list (string * string)) (t : tallies) :
  total (tally_all t l) = total t + Z.of_nat (length l).
Proof.
  revert t. induction l as [|p l IH]; intros t; [simpl; lia|].
  unfold tally_all in *. cbn [foldl]. rewrite IH, tally_total. simpl length. lia.
Qed.

Lemma tally_all_fail_count (l : list (string * string)) (t : tallies) :
  fail_count (tally_all t l) = fail_count t + Z.of_nat (length (failed_ids l)).
Proof.
  revert t. induction l as [|p l IH]; intros t; [simpl; lia|].
  unfold tally_all, failed_ids in *. cbn [foldl List.filter].
  rewrite IH, tally_fail_count.
  destruct (is_failed p.2); cbn [fmap list_fmap length]; lia.
Qed.

Lemma tally_all_failed_parts (l : list (string * string)) (t : tallies) :
  failed_parts (tally_all t l) = failed_parts t ++ failed_ids l.
Proof.
  revert t. induction l as [|p l IH]; intros t; [simpl; by rewrite app_nil_r|].
  unfold tally_all, failed_ids in *. cbn [foldl List.filter].
  rewrite IH, tally_failed_parts, <- app_assoc. destruct (is_failed p.2); reflexivity.
Qed.

Section Accepts.
Context {W : Type} (P : ops W).

Lemma check_lcsc_links_accepts (lcsc_id : string) (links : list locator) (w w' : W) :
  check_lcsc_links P lcsc_id links w = (w', Ok true) ->
  saw_matching_text P lcsc_id w'.
Proof.
  revert w. induction links as [|link links IH]; intros w; [discriminate|].
  cbn [check_lcsc_links]. unfold bind at 1.
  destruct (inner_text P link w) as [w1 [inner|e]] eqn:T; [|discriminate].
  unfold link_text_matches.
  destruct (String.eqb_spec (strip inner) lcsc_id) as [M|_]; [|apply IH].
  intros [= <-]. exists link, w, inner. auto.
Qed.

Lemma check_candidate_accepts (lcsc_id part_id : string) (w w' : W) :
  check_candidate P lcsc_id part_id w = (w', Ok true) ->
  saw_matching_text P lcsc_id w'.
Proof.
  unfold check_candidate, all, bind, ret.
  destruct (goto P (SuppliersUrl part_id) w) as [w1 [[]|e]]; [|discriminate].
  destruct (count P _ w1) as [w2 [n|e]]; [|discriminate].
  apply check_lcsc_links_accepts.
Qed.

Lemma check_part_links_accepts (lcsc_id : string) (links : list locator) (w w' : W) :
  check_part_links P lcsc_id links w = (w', Ok true) ->
  saw_matching_text P lcsc_id w'.
Proof.
  revert w. induction links as [|link links IH]; intros w; [discriminate|].
  cbn [check_part_links]. unfold bind at 1.
  destruct (get_attribute P link "href" w) as [w1 [[h|]|e]]; try discriminate.
  destruct (re_search_part_id h) as [part_id|]; [|apply IH].
  unfold bind.
  destruct (check_candidate P lcsc_id part_id w1) as [w2 [[|]|e]] eqn:C;
    [|apply IH|discriminate].
  intros [= <-]. eapply check_candidate_accepts, C.
Qed.

Lemma check_part_exists_accepts (lcsc_id : string) (w w' : W) :
  check_part_exists P lcsc_id w = (w', true) ->
  saw_matching_text P lcsc_id w'.
Proof.
  unfold check_part_exists.
  destruct (check_part_exists_body P lcsc_id w) as [w1 [b|e]] eqn:B; [|discriminate].
  intros [= <- ->]. revert B.
  unfold check_part_exists_body, all, bind, ret.
  destruct (goto P (SearchUrl lcsc_id) w) as [w2 [[]|e]]; [|discriminate].
  destruct (count P _ w2) as [w3 [n|e]]; [|discriminate].
  destruct (map _ (seq 0 n)) eqn:L; [discriminate|].
  apply check_part_links_accepts.
Qed.

End Accepts.

Section Loop.
Context {W : Type} (P : ops W).

Lemma import_parts_cons (lcsc_id : string) (amount : Z) (rest : list (string * Z))
    (w : W) (t : tallies) :
  import_parts P ((lcsc_id, amount) :: rest) w t
  = import_parts P rest (process_single_part P lcsc_id amount w).1
      (tally t lcsc_id (process_single_part P lcsc_id amount w).2).
Proof. cbn [import_parts]. destruct (process_single_part P lcsc_id amount w). reflexivity. Qed.

Lemma outcomes_cons (lcsc_id : string) (amount : Z) (rest : list (string * Z)) (w : W) :
  outcomes P ((lcsc_id, amount) :: rest) w
  = (process_single_part P lcsc_id amount w).2
    :: outcomes P rest (process_single_part P lcsc_id amount w).1.
Proof. cbn [outcomes]. destruct (process_single_part P lcsc_id amount w). reflexivity. Qed.

Lemma outcomes_length (parts : list (string * Z)) (w : W) :
  length (outcomes P parts w) = length parts.
Proof.
  revert w. induction parts as [|[lcsc_id amount] rest IH]; intros w; [reflexivity|].
  rewrite outcomes_cons. simpl. by rewrite IH.
Qed.

Lemma outcomes_statuses (parts : list (string * Z)) (w : W) :
  Forall (fun st => st = "success" \/ st = "skipped" \/ st = "failed")
         (outcomes P parts w).
Proof.
  revert w. induction parts as [|[lcsc_id amount] rest IH]; intros w; [constructor|].
  rewrite outcomes_cons. constructor; [apply process_single_part_status|apply IH].
Qed.

(** The loop tallies the status of each part in turn. *)
Lemma import_parts_tallies (parts : list (string * Z)) (w : W) (t : tallies) :
  (import_parts P parts w t).2 = tally_all t (zip parts.*1 (outcomes P parts w)).
Proof.
  revert w t. induction parts as [|[lcsc_id amount] rest IH]; intros w t; [reflexivity|].
  rewrite import_parts_cons, outcomes_cons, IH. reflexivity.
Qed.

Lemma import_parts_app (pre rest : list (string * Z)) (w : W) (t : tallies) :
  import_parts P (pre ++ rest) w t
  = import_parts P rest (import_parts P pre w t).1 (import_parts P pre w t).2.
Proof.
  revert w t. induction pre as [|[lcsc_id amount] pre IH]; intros w t; [reflexivity|].
  rewrite <- app_comm_cons, !import_parts_cons. apply IH.
Qed.

End Loop.

Lemma tally_all_good_counts (l : list (string * string)) (t : tallies) :
  success_count (tally_all t l) + skipped_count (tally_all t l)
  = success_count t + skipped_count t
    + Z.of_nat (length l) - Z.of_nat (length (failed_ids l)).
Proof.
  pose proof (tally_all_total l t) as T.
  pose proof (tally_all_fail_count l t) as F.
  unfold total in T. lia.
Qed.

Lemma import_parts_invariants {W : Type} (P : ops W) (parts : list (string * Z)) (w : W) :
  let t := (import_parts P parts w init_tallies).2 in
  let sts := outcomes P parts w in
  success_count t + skipped_count t + fail_count t = Z.of_nat (length parts)
  /\ Z.of_nat (length (failed_parts t)) = fail_count t
  /\ failed_parts t = failed_ids (zip parts.*1 sts).
Proof.
  intros t sts. subst t. rewrite import_parts_tallies. fold sts.
  pose proof (tally_all_total (zip parts.*1 sts) init_tallies) as T.
  pose proof (tally_all_fail_count (zip parts.*1 sts) init_tallies) as F.
  pose proof (tally_all_failed_parts (zip parts.*1 sts) init_tallies) as L.
  unfold total in T. cbn [init_tallies success_count skipped_count fail_count failed_parts] in *.
  assert (length (zip parts.*1 sts) = length parts) as Len.
  { rewrite length_zip, length_fmap. unfold sts. rewrite outcomes_length. lia. }
  rewrite Len in T. rewrite L. cbn [app].
  split; [lia|split; [lia|reflexivity]].
Qed.

Lemma is_failed_spec (st : string) :
  is_failed st = true <-> st <> "success" /\ st <> "skipped".
Proof.
  unfold is_failed.
  destruct (String.eqb_spec st "success"), (String.eqb_spec st "skipped");
    simpl; split; try tauto; try discriminate; auto.
Qed.

Lemma failed_ids_elem (l : list (string * string)) (lcsc_id : string) :
  lcsc_id ∈ failed_ids l
  <-> exists st, (lcsc_id, st) ∈ l /\ st <> "success" /\ st <> "skipped".
Proof.
  unfold failed_ids. rewrite list_elem_of_fmap. split.
  - intros ([id st] & -> & In). apply list_elem_of_In, filter_In in In as [In F].
    apply is_failed_spec in F. exists st. rewrite list_elem_of_In. auto.
  - intros (st & In & F). exists (lcsc_id, st). split; [reflexivity|].
    apply list_elem_of_In, filter_In. rewrite <- list_elem_of_In.
    split; [exact In|]. by apply is_failed_spec.
Qed.

End RunFacts.

(** ** Facts on the static site *)

Module StaticFacts.
Import Importer Page Run StaticSite.

Section Static.
Variable s : site.

Lemma resolve_nth (l : locator) (page : list (string * string)) (k : nat)
    (a : string * string) (rest : list (string * string)) :
  drop k (resolve l page) = a :: rest ->
  resolve (Nth l k) page = [a].
Proof.
  intros H. cbn [resolve].
  assert (resolve l page !! k = Some a) as ->; [|reflexivity].
  rewrite <- (Nat.add_0_r k), <- lookup_drop, H. reflexivity.
Qed.

(** The inner loop on the static site: a search through the texts of the
    elements found. *)
Lemma check_lcsc_links_static (lcsc_id : string) (l : locator) (w : world)
    (found : list (string * string)) (k : nat) :
  drop k (resolve l (shown s w)) = found ->
  check_lcsc_links (static_ops s) lcsc_id (map (Nth l) (seq k (length found))) w
  = (w, Ok (existsb (fun a => link_text_matches lcsc_id a.2) found)).
Proof.
  revert k. induction found as [|a found IH]; intros k H; [reflexivity|].
  cbn [length seq map check_lcsc_links existsb].
  unfold bind at 1. cbn [inner_text static_ops]. unfold the_element.
  rewrite (resolve_nth _ _ _ _ _ H).
  destruct (link_text_matches lcsc_id a.2); [reflexivity|].
  cbn [orb]. apply IH.
  replace (S k) with (k + 1)%nat by lia.
  rewrite <- (drop_drop _ 1 k), H. reflexivity.
Qed.

Lemma check_candidate_static (lcsc_id part_id : string) (w : world) :
  broken s (SuppliersUrl part_id) = false ->
  check_candidate (static_ops s) lcsc_id part_id w
  = (Some (SuppliersUrl part_id),
     Ok (existsb (fun a => link_text_matches lcsc_id a.2)
           (supplier_links lcsc_id (anchors s (SuppliersUrl part_id))))).
Proof.
  intros B. unfold check_candidate, bind at 1. cbn [goto static_ops]. rewrite B.
  unfold all, bind, ret. cbn [count static_ops].
  apply (check_lcsc_links_static lcsc_id _ (Some (SuppliersUrl part_id)) _ 0).
  reflexivity.
Qed.

End Static.

Lemma existsb_supplier_links (lcsc_id : string) (page : list (string * string)) :
  existsb (fun a => link_text_matches lcsc_id a.2) (supplier_links lcsc_id page) = true
  <-> exists a, a ∈ page /\ contains "lcsc.com" a.1 = true
                /\ contains lcsc_id a.1 = true /\ strip a.2 = lcsc_id.
Proof.
  rewrite existsb_exists. unfold supplier_links, link_text_matches. split.
  - intros (a & In & M). apply filter_In in In as [In Sel].
    unfold selects in Sel. cbn [forallb] in Sel.
    apply andb_prop in Sel as [S1 S2]. apply andb_prop in S2 as [S2 _].
    apply String.eqb_eq in M. exists a. rewrite list_elem_of_In. auto.
  - intros (a & In & S1 & S2 & M). exists a. rewrite filter_In.
    rewrite list_elem_of_In in In. unfold selects. cbn [forallb].
    rewrite S1, S2, M, String.eqb_refl. auto.
Qed.

End StaticFacts.

(** ** The claims *)

Import Importer Page Run StaticSite Spec.
Import PyStrFacts CategoryFacts RequestFacts ExtractorFacts RunFacts StaticFacts.

(** C1 on a search with two results.  The second result shows exactly the
    target and is accepted when it is examined alone, the first one shows
    another identifier; the matcher reports the part as not existing,
    because after the visit to the suppliers of the first result the link
    of the second one is looked for on that page, the call times out and
    the handler returns [False]. *)
Theorem C1_second_result_is_not_checked :
  check_candidate (static_ops two_results) "C1991" "8" None
  = (Some (SuppliersUrl "8"), Ok false)
  /\ check_candidate (static_ops two_results) "C1991" "9" None
     = (Some (SuppliersUrl "9"), Ok true)
  /\ check_part_exists_body (static_ops two_results) "C1991" None
     = (Some (SuppliersUrl "8"), Err PlaywrightTimeout)
  /\ check_part_exists (static_ops two_results) "C1991" None
     = (Some (SuppliersUrl "8"), false).
Proof. repeat split; reflexivity. Qed.

(** One search result taken alone.  Whatever the page does, the matcher
    reports a part as existing only after reading a link text that, once
    trimmed of the white space around it, equals the target character
    for character.  On a static site, a search result examined alone is
    accepted exactly when its page of suppliers shows a link to lcsc.com
    whose address contains the target and whose trimmed text equals the
    target.  With a single search result, displayed C19915 is rejected
    for target C1991 and displayed C1991 is accepted. *)
Lemma check_candidate_accepts_iff_trimmed_text_equal :
  (forall (W : Type) (P : ops W) (lcsc_id : string) (w w' : W),
     check_part_exists P lcsc_id w = (w', true) ->
     saw_matching_text P lcsc_id w')
  /\ (forall (s : site) (lcsc_id part_id : string) (w : world),
        broken s (SuppliersUrl part_id) = false ->
        ((check_candidate (static_ops s) lcsc_id part_id w).2 = Ok true
         <-> exists a, a ∈ anchors s (SuppliersUrl part_id)
                       /\ contains "lcsc.com" a.1 = true
                       /\ contains lcsc_id a.1 = true /\ strip a.2 = lcsc_id))
  /\ (check_part_exists
        (static_ops (catalog [("https://www.lcsc.com/product-detail/C19915.html", "C19915")]))
        "C1991" None).2 = false
  /\ (check_part_exists
        (static_ops (catalog [("https://www.lcsc.com/product-detail/C1991.html", "C1991")]))
        "C1991" None).2 = true.
Proof.
  split; [intros W P; apply check_part_exists_accepts|].
  split; [|split; reflexivity].
  intros s lcsc_id part_id w B.
  rewrite (check_candidate_static s lcsc_id part_id w B). cbn [snd].
  rewrite <- existsb_supplier_links.
  destruct (existsb _ _); split; congruence.
Qed.

Lemma check_candidate_accepts_witness :
  saw_matching_text
    (static_ops (catalog [("https://www.lcsc.com/product-detail/C1991.html", "C1991")]))
    "C1991" (Some (SuppliersUrl "8"))
  /\ ((check_candidate
         (static_ops (catalog [("https://www.lcsc.com/product-detail/C1991.html", "C1991")]))
         "C1991" "8" None).2 = Ok true
      <-> exists a,
            a ∈ anchors (catalog [("https://www.lcsc.com/product-detail/C1991.html", "C1991")])
                  (SuppliersUrl "8")
            /\ contains "lcsc.com" a.1 = true
            /\ contains "C1991" a.1 = true /\ strip a.2 = "C1991").
Proof.
  destruct check_candidate_accepts_iff_trimmed_text_equal as (H1 & H2 & _).
  split.
  - apply (H1 _ _ "C1991" None). reflexivity.
  - apply H2. reflexivity.
Defined.

(** The text of a link is compared after [strip]: a text with a trailing
    space is not equal to the target, and the part is reported as
    existing. *)
Lemma padded_link_text_is_accepted :
  "C1991 " <> "C1991"
  /\ link_text_matches "C1991" "C1991 " = true
  /\ (check_part_exists
        (static_ops (catalog [("https://www.lcsc.com/product-detail/C1991.html", "C1991 ")]))
        "C1991" None).2 = true
  /\ ~ (forall lcsc_id inner,
          link_text_matches lcsc_id inner = true <-> inner = lcsc_id).
Proof.
  split; [discriminate|]. split; [reflexivity|]. split; [reflexivity|].
  intros H. destruct (H "C1991" "C1991 ") as [H1 _].
  specialize (H1 eq_refl). discriminate H1.
Qed.

(** C3.  When the search raises, whatever the exception, the matcher
    returns [False] without raising, and [process_single_part] goes on
    with the creation flow for that identifier. *)
Theorem C3_search_error_reports_not_found {W : Type} (P : ops W)
    (lcsc_id : string) (amount : Z) (w w' : W) (e : exn) :
  check_part_exists_body P lcsc_id w = (w', Err e) ->
  check_part_exists P lcsc_id w = (w', false)
  /\ process_single_part_body P lcsc_id amount w = create_part P lcsc_id amount w'.
Proof.
  intros H. split; [exact (check_part_exists_error P _ _ _ _ H)|].
  exact (process_after_error P _ _ _ _ _ H).
Qed.

Lemma C3_witness :
  check_part_exists_body (static_ops (catalog [])) "C7" None = (None, Err PlaywrightError)
  /\ check_part_exists (static_ops (catalog [])) "C7" None = (None, false)
  /\ process_single_part_body (static_ops (catalog [])) "C7" 5 None
     = create_part (static_ops (catalog [])) "C7" 5 None.
Proof.
  split; [reflexivity|].
  apply (C3_search_error_reports_not_found (static_ops (catalog [])) "C7" 5 None None
           PlaywrightError).
  reflexivity.
Defined.

(** C2, as the code has it.  [parse_lcsc_category] returns the empty path
    when the marker is absent; otherwise it takes what follows the first
    marker, skips the leading white space, keeps the first line only,
    trims it, splits it on the separator and trims each segment; one
    segment gives (empty parent, segment), several give (first, last).
    The three examples of the specification hold. *)
Theorem C2_parse_lcsc_category_first_line :
  (forall text, parse_lcsc_category text = Spec.category_line_path text)
  /\ parse_lcsc_category "Provider: Circuit Protection -> Varistors, MOVs"
     = ("Circuit Protection", "Varistors, MOVs")
  /\ parse_lcsc_category "Provider: Resistors" = ("", "Resistors")
  /\ parse_lcsc_category "no marker here" = ("", "").
Proof.
  split; [exact parse_lcsc_category_closed|].
  repeat split; reflexivity.
Qed.

(** C2 as stated fails: on a help text of two lines the code stops at the
    end of the first line, while the remainder after the marker runs to
    the end of the text. *)
Lemma C2_counterexample_second_line :
  parse_lcsc_category ("Provider: A -> B" +:+ String newline "C") = ("A", "B")
  /\ Spec.category_path ("Provider: A -> B" +:+ String newline "C")
     = ("A", "B" +:+ String newline "C")
  /\ parse_lcsc_category ("Provider: A -> B" +:+ String newline "C")
     <> Spec.category_path ("Provider: A -> B" +:+ String newline "C").
Proof. split; [reflexivity|split; [reflexivity|discriminate]]. Qed.

(** C5, as the code has it.  The parent is empty whenever the text has
    no separator; when the marker is found the leaf is the trimmed last
    segment of the category line, so it is empty exactly when that
    segment is blank. *)
Theorem C5_parent_empty_leaf_trimmed_last (text : string) :
  (contains "->" text = false -> (parse_lcsc_category text).1 = "")
  /\ (forall r, after_first "Provider:" text = Some r ->
        ((parse_lcsc_category text).2 = ""
         <-> all_chars is_space
               (List.last (split_arrow (strip (take_line (lstrip r)))) "") = true)).
Proof.
  split; [apply parent_empty_without_arrow|].
  intros r A. rewrite (leaf_of_marked_text _ _ A). apply strip_empty.
Qed.

Lemma C5_witness :
  (parse_lcsc_category "Provider: Resistors").1 = ""
  /\ ((parse_lcsc_category "Provider: Resistors").2 = ""
      <-> all_chars is_space
            (List.last (split_arrow (strip (take_line (lstrip " Resistors")))) "") = true).
Proof.
  destruct (C5_parent_empty_leaf_trimmed_last "Provider: Resistors") as [H1 H2].
  split; [apply H1; reflexivity|apply H2; reflexivity].
Defined.

(** C5 as stated fails: the marker is found and the leaf is empty. *)
Lemma C5_counterexample_empty_leaf :
  contains "Provider:" "Provider: A ->" = true
  /\ re_search_provider "Provider: A ->" = Some "A ->"
  /\ parse_lcsc_category "Provider: A ->" = ("A", "")
  /\ ~ (forall text, contains "Provider:" text = true ->
                     (parse_lcsc_category text).2 <> "").
Proof.
  split; [reflexivity|]. split; [reflexivity|]. split; [reflexivity|].
  intros H. apply (H "Provider: A ->"); reflexivity.
Qed.

(** C4.  A row yields a request exactly when it has two fields, the first
    matches [^C\d+$] after trimming and the second parses as an integer
    after trimming; any other row is dropped with one warning, and the
    loop goes on with the rows that follow.  The four examples hold. *)
Theorem C4_load_parts_csv_rows :
  (forall row p, load_row row = inr p <-> Spec.row_request row = Some p)
  /\ (forall row, (exists d, load_row row = inl d) <-> Spec.row_request row = None)
  /\ (forall row rows,
        load_parts_csv (row :: rows)
        = match load_row row with
          | inr p => (p :: (load_parts_csv rows).1, (load_parts_csv rows).2)
          | inl d => ((load_parts_csv rows).1, d :: (load_parts_csv rows).2)
          end)
  /\ (forall rows, (load_parts_csv rows).1 = omap Spec.row_request rows)
  /\ load_row (csv_fields "C12345,10") = inr ("C12345", 10)
  /\ load_row (csv_fields "12345,10") = inl (InvalidLcscIdFormat "12345")
  /\ load_row (csv_fields "C12345,abc") = inl (InvalidAmount "C12345" "abc")
  /\ load_row (csv_fields "C12345") = inl (SkippingInvalidRow ["C12345"]).
Proof.
  split; [exact load_row_request|].
  split; [exact load_row_dropped|].
  split; [exact load_parts_csv_cons|].
  split; [exact load_parts_csv_requests|].
  repeat split; reflexivity.
Qed.

(** C6, as the code has it.  Every request has an identifier made of the
    letter C and one or more digits, and its quantity is the integer,
    of either sign, that [int] reads in the trimmed second field. *)
Theorem C6_requests_well_formed (rows : list (list string)) (lcsc_id : string)
    (amount : Z) :
  (lcsc_id, amount) ∈ (load_parts_csv rows).1 ->
  Spec.lcsc_pattern lcsc_id = true
  /\ exists f0 f1, [f0; f1] ∈ rows /\ lcsc_id = strip f0
                   /\ py_int (strip f1) = Some amount.
Proof.
  rewrite load_parts_csv_requests, list_elem_of_omap.
  intros (row & In & R). unfold Spec.row_request in R.
  destruct row as [|f0 [|f1 [|f2 row]]]; try discriminate.
  destruct (Spec.lcsc_pattern (strip f0)) eqn:Pat; [|discriminate].
  destruct (py_int (strip f1)) as [n|] eqn:Int; [|discriminate].
  injection R as <- <-. eauto 6.
Qed.

Lemma C6_witness :
  Spec.lcsc_pattern "C12345" = true
  /\ exists f0 f1, [f0; f1] ∈ [["C12345"; "10"]] /\ "C12345" = strip f0
                   /\ py_int (strip f1) = Some 10.
Proof.
  apply (C6_requests_well_formed [["C12345"; "10"]] "C12345" 10).
  vm_compute. apply list_elem_of_here.
Defined.

(** C6 as stated fails: a negative quantity is accepted. *)
Lemma C6_counterexample_negative_quantity :
  load_parts_csv [["C1"; "-5"]] = ([("C1", -5)], [])
  /\ ~ (forall rows p, p ∈ (load_parts_csv rows).1 ->
                       Spec.lcsc_pattern p.1 = true /\ 0 <= p.2).
Proof.
  split; [reflexivity|]. intros H.
  destruct (H [["C1"; "-5"]] ("C1", -5)) as [_ H2]; [apply list_elem_of_here|].
  simpl in H2. lia.
Qed.

(** C7 at a short row.  The row lacks the quantity field, so no line is
    due for it; the code raises [AttributeError] and the rows after it
    are never read. *)
Theorem C7_short_row_raises :
  Spec.row_line ["LCSC Part Number"; "Quantity"] ["C123"] = None
  /\ Extractor.extract_lcsc_and_quantity
       [["LCSC Part Number"; "Quantity"]; ["C1"; "5"]; ["C123"]; ["C2"; "7"]]
     = (["C1,5" +:+ String newline ""], Some AttributeError).
Proof. split; vm_compute; reflexivity. Qed.

(** On complete rows, that is when no row is shorter than the header up
    to the two named columns, one line is written per row with both
    fields non-blank, in the order of the rows, and nothing raises. *)
Lemma extract_complete_rows (fieldnames : list string) (rows : list (list string)) :
  Forall (fun row => row = [] \/ Spec.cells_present (Extractor.dict_row fieldnames row)) rows ->
  Extractor.extract_lcsc_and_quantity (fieldnames :: rows)
  = (omap (Spec.row_line fieldnames) rows, None).
Proof. intros H. apply (write_rows_present fieldnames rows [] H). Qed.

(** C8.  [process_single_part] is called once per request and always
    returns one of the three statuses; whatever the status, the loop goes
    on with the next request, so every request gets an outcome and the
    failed ones are counted and listed.  When exactly one request of a
    run fails, [fail_count] is 1, the list of failed parts holds that
    identifier alone and the other requests are all counted as imported
    or skipped. *)
Theorem C8_failure_does_not_stop_the_run {W : Type} (P : ops W)
    (parts : list (string * Z)) (w : W) :
  let t := (import_parts P parts w init_tallies).2 in
  let sts := outcomes P parts w in
  length sts = length parts
  /\ Forall (fun st => st = "success" \/ st = "skipped" \/ st = "failed") sts
  /\ (forall id amount rest w0 t0,
        import_parts P ((id, amount) :: rest) w0 t0
        = import_parts P rest (process_single_part P id amount w0).1
            (tally t0 id (process_single_part P id amount w0).2))
  /\ t = tally_all init_tallies (zip parts.*1 sts)
  /\ (forall lcsc_id,
        failed_ids (zip parts.*1 sts) = [lcsc_id] ->
        fail_count t = 1
        /\ failed_parts t = [lcsc_id]
        /\ success_count t + skipped_count t = Z.of_nat (length parts) - 1).
Proof.
  intros t sts.
  split; [apply outcomes_length|].
  split; [apply outcomes_statuses|].
  split; [intros; apply import_parts_cons|].
  split; [apply import_parts_tallies|].
  intros lcsc_id One.
  destruct (import_parts_invariants P parts w) as (T & F & L).
  fold t sts in T, F, L. rewrite One in L. rewrite L in F. simpl in F.
  split; [lia|]. split; [exact L|]. lia.
Qed.

Lemma C8_witness :
  let t := (import_parts (static_ops five_catalog) five_parts None init_tallies).2 in
  let sts := outcomes (static_ops five_catalog) five_parts None in
  sts = ["success"; "success"; "failed"; "skipped"; "success"]
  /\ length sts = length five_parts
  /\ fail_count t = 1
  /\ failed_parts t = ["C3"]
  /\ success_count t + skipped_count t = 4.
Proof.
  split; [reflexivity|].
  destruct (C8_failure_does_not_stop_the_run (static_ops five_catalog) five_parts None)
    as (H1 & _ & _ & _ & H5).
  split; [exact H1|]. apply (H5 "C3"). reflexivity.
Defined.

(** C9.  Once authenticated, a file whose rows are all dropped ends the
    run with status 1 in the world left by the authentication, no page of
    the catalog having been opened, and so does a file that does not
    exist, which gives no request either; a file with at least one valid row
    is imported, whatever the number of dropped rows, and the run ends
    with status 0 when the browser closes normally. *)
Theorem C9_empty_request_set_is_fatal {W : Type} (P : ops W) (w w1 : W) :
  authenticate P w = (w1, Done tt) ->
  (forall rows, (load_parts_csv rows).1 = [] -> main P (Some rows) w = (w1, 1))
  /\ main P None w = (w1, 1)
  /\ (forall rows, (load_parts_csv rows).1 <> [] ->
        main P (Some rows) w
        = match cleanup P (import_parts P (load_parts_csv rows).1 w1 init_tallies).1 with
          | (w3, Ok _) => (w3, 0)
          | (w3, Err _) => fatal P w3
          end).
Proof.
  intros A. split; [|split]; [intros rows H| |intros rows H]; unfold main; rewrite A.
  - rewrite H. reflexivity.
  - reflexivity.
  - destruct (load_parts_csv rows).1 as [|p parts]; [done|].
    destruct (import_parts P (p :: parts) w1 init_tallies). reflexivity.
Qed.

Lemma C9_witness :
  main (static_ops five_catalog) (Some [["12345"; "10"]; ["C12345"; "abc"]]) None
  = (Some AccountUrl, 1)
  /\ main (static_ops five_catalog) (Some [["12345"; "10"]; ["C5"; "2"]]) None
     = (Some (CreateUrl "C5"), 0).
Proof.
  destruct (C9_empty_request_set_is_fatal (static_ops five_catalog) None (Some AccountUrl))
    as (H1 & _ & H2); [reflexivity|].
  split.
  - apply H1. reflexivity.
  - rewrite H2; [reflexivity|discriminate].
Defined.

(** C10.  Starting from the counters of [__init__], after any prefix of
    the requests the three counters add up to the length of the prefix,
    the list of failed parts is as long as [fail_count], and it holds
    exactly the identifiers whose status was neither [success] nor
    [skipped]; the loop then goes on from these tallies. *)
Theorem C10_tallies_consistent {W : Type} (P : ops W)
    (pre rest : list (string * Z)) (w : W) :
  let t := (import_parts P pre w init_tallies).2 in
  let sts := outcomes P pre w in
  import_parts P (pre ++ rest) w init_tallies
  = import_parts P rest (import_parts P pre w init_tallies).1 t
  /\ success_count t + skipped_count t + fail_count t = Z.of_nat (length pre)
  /\ Z.of_nat (length (failed_parts t)) = fail_count t
  /\ (forall lcsc_id,
        lcsc_id ∈ failed_parts t
        <-> exists i amount st,
              pre !! i = Some (lcsc_id, amount) /\ sts !! i = Some st
              /\ st <> "success" /\ st <> "skipped").
Proof.
  intros t sts. split; [apply import_parts_app|].
  destruct (import_parts_invariants P pre w) as (T & F & L).
  fold t sts in T, F, L. split; [exact T|]. split; [exact F|].
  intros lcsc_id. rewrite L, failed_ids_elem. split.
  - intros (st & In & Hst). apply list_elem_of_lookup in In as [i Hi].
    apply lookup_zip_Some in Hi as [H1 H2].
    rewrite list_lookup_fmap in H1.
    destruct (pre !! i) as [[id amount]|] eqn:E; [|discriminate].
    injection H1 as ->. exists i, amount, st. auto.
  - intros (i & amount & st & H1 & H2 & Hst). exists st. split; [|exact Hst].
    apply list_elem_of_lookup. exists i. apply lookup_zip_Some.
    rewrite list_lookup_fmap, H1. auto.
Qed.

(** ** Further properties of the code *)

Import Extractor Notions.

Lemma rstrip_cons (c : ascii) (s : string) :
  rstrip (String c s)
  = if is_space c && is_empty (rstrip s) then EmptyString else String c (rstrip s).
Proof. reflexivity. Qed.

Lemma rstrip_fixed (s : string) : ends_in_space s = false -> rstrip s = s.
Proof.
  induction s as [|c s IH]; [reflexivity|].
  destruct s as [|d s].
  - cbn. intros ->. reflexivity.
  - intros H. change (ends_in_space (String d s) = false) in H.
    rewrite rstrip_cons, (IH H). cbn [is_empty]. rewrite andb_false_r. reflexivity.
Qed.

Lemma rstrip_head (c : ascii) (s : string) :
  is_space c = false -> rstrip (String c s) = String c (rstrip s).
Proof. intros H. cbn [rstrip]. rewrite H. reflexivity. Qed.

Lemma lstrip_head (c : ascii) (s : string) :
  is_space c = false -> lstrip (String c s) = String c s.
Proof. intros H. cbn [lstrip]. rewrite H. reflexivity. Qed.

Lemma lstrip_shape (s : string) :
  lstrip s = EmptyString \/ exists c r, lstrip s = String c r /\ is_space c = false.
Proof.
  induction s as [|c s IH]; [auto|]. cbn [lstrip].
  destruct (is_space c) eqn:E; [exact IH|]. right. eauto.
Qed.

Lemma strip_shape (s : string) :
  strip s = EmptyString \/ exists c r, strip s = String c r /\ is_space c = false.
Proof.
  unfold strip. destruct (lstrip_shape s) as [->|(c & r & -> & Sp)]; [auto|].
  right. rewrite (rstrip_head _ _ Sp). eauto.
Qed.

(** A text that neither begins nor ends with white space is its own trim. *)
Lemma strip_fixed (c : ascii) (s : string) :
  is_space c = false -> ends_in_space (String c s) = false ->
  strip (String c s) = String c s.
Proof.
  intros Sp E. unfold strip. rewrite (lstrip_head _ _ Sp). apply rstrip_fixed, E.
Qed.

Lemma strip_idempotent (s : string) : strip (strip s) = strip s.
Proof.
  pose proof (strip_ends s) as E.
  destruct (strip_shape s) as [->|(c & r & Eq & Sp)]; [reflexivity|].
  rewrite Eq in *. apply strip_fixed; assumption.
Qed.

(** X1.  What [load_row] does with a row does not depend on the white space
    around its two fields. *)
Theorem load_row_trimmed (f0 f1 : string) :
  load_row [strip f0; strip f1] = load_row [f0; f1].
Proof. unfold load_row. rewrite !strip_idempotent. reflexivity. Qed.

Lemma omap_app_list {A B : Type} (f : A -> option B) (l1 l2 : list A) :
  omap f (l1 ++ l2) = omap f l1 ++ omap f l2.
Proof.
  induction l1 as [|x l1 IH]; [reflexivity|].
  rewrite <- app_comm_cons, !omap_cons, IH. destruct (f x); reflexivity.
Qed.

(** X2.  The rows of two files loaded one after the other give the requests
    and the warnings of the first followed by those of the second. *)
Theorem load_parts_csv_app (rows1 rows2 : list (list string)) :
  load_parts_csv (rows1 ++ rows2)
  = ((load_parts_csv rows1).1 ++ (load_parts_csv rows2).1,
     (load_parts_csv rows1).2 ++ (load_parts_csv rows2).2).
Proof. rewrite !load_parts_csv_rows, !omap_app_list. reflexivity. Qed.

Lemma digits_no_space (s : string) :
  all_chars is_digit s = true -> s <> EmptyString -> ends_in_space s = false.
Proof.
  induction s as [|c s IH]; [done|]. cbn [all_chars]. intros H _.
  apply andb_prop in H as [D H]. destruct s as [|d s].
  - cbn. revert D. unfold is_digit, is_space.
    generalize (nat_of_ascii c). intros n. 
    destruct (48 <=? n)%nat eqn:A, (n <=? 57)%nat eqn:B; try discriminate. intros _.
    apply Nat.leb_le in A, B.
    repeat match goal with
           | |- context [(?a <=? ?b)%nat] => destruct (Nat.leb_spec a b)
           | |- context [(?a =? ?b)%nat] => destruct (Nat.eqb_spec a b)
           end; simpl; try reflexivity; lia.
  - change (ends_in_space (String d s) = false). apply IH; [exact H|done].
Qed.

Lemma lcsc_pattern_trimmed (s : string) :
  lcsc_pattern s = true -> strip s = s.
Proof.
  destruct s as [|c s]; [done|]. unfold lcsc_pattern.
  intros H. apply andb_prop in H as [H D]. apply andb_prop in H as [C N].
  apply Ascii.eqb_eq in C. subst c.
  apply strip_fixed; [reflexivity|].
  destruct s as [|d s]; [done|].
  change (ends_in_space (String d s) = false). apply digits_no_space; [exact D|done].
Qed.

(** X4.  For a displayed text that is itself an identifier, the test of the
    matcher is equality. *)
Theorem link_text_matches_identifier (lcsc_id text : string) :
  lcsc_pattern text = true ->
  (link_text_matches lcsc_id text = true <-> text = lcsc_id).
Proof.
  intros H. unfold link_text_matches. rewrite (lcsc_pattern_trimmed _ H).
  apply String.eqb_eq.
Qed.


Lemma fill_none_other (ks : list string) (m : gmap string (option string)) (k : string) :
  k ∉ ks -> fill_none m ks !! k = m !! k.
Proof.
  revert m. induction ks as [|k0 ks IH]; intros m H; [reflexivity|].
  apply not_elem_of_cons in H as [Ne H]. cbn [fill_none foldl].
  change (fill_none (<[k0:=None]> m) ks !! k = m !! k).
  rewrite (IH _ H). apply lookup_insert_ne. congruence.
Qed.

Lemma fill_none_there (ks : list string) (m : gmap string (option string)) (k : string) :
  k ∈ ks -> fill_none m ks !! k = Some None.
Proof.
  revert m. induction ks as [|k0 ks IH]; intros m H; [by apply elem_of_nil in H|].
  change (fill_none (<[k0:=None]> m) ks !! k = Some None).
  destruct (decide (k ∈ ks)) as [In|Out]; [apply IH, In|].
  rewrite (fill_none_other _ _ _ Out).
  apply elem_of_cons in H as [->|?]; [apply lookup_insert_eq|done].
Qed.

Lemma dict_row_from (fieldnames row : list string) :
  dict_row fieldnames row = dict_from ∅ fieldnames row.
Proof. reflexivity. Qed.

Lemma dict_from_cons (m : gmap string (option string)) (k0 v : string)
    (fieldnames row : list string) :
  dict_from m (k0 :: fieldnames) (v :: row)
  = dict_from (<[k0 := Some v]> m) fieldnames row.
Proof. reflexivity. Qed.

Lemma dict_from_short (m : gmap string (option string)) (fieldnames : list string) :
  dict_from m fieldnames [] = fill_none m fieldnames.
Proof. destruct fieldnames; reflexivity. Qed.

Lemma dict_from_other (fieldnames row : list string) (m : gmap string (option string))
    (k : string) :
  k ∉ fieldnames -> dict_from m fieldnames row !! k = m !! k.
Proof.
  revert m row. induction fieldnames as [|k0 fn IH]; intros m row H.
  - destruct row; reflexivity.
  - destruct row as [|v row].
    + rewrite dict_from_short. by apply fill_none_other.
    + apply not_elem_of_cons in H as [Ne H].
      rewrite dict_from_cons, (IH _ _ H). apply lookup_insert_ne. congruence.
Qed.

Lemma dict_from_lookup (fieldnames row : list string) (m : gmap string (option string))
    (i : nat) (k : string) :
  NoDup fieldnames -> fieldnames !! i = Some k ->
  dict_from m fieldnames row !! k = Some (row !! i).
Proof.
  revert m row i. induction fieldnames as [|k0 fn IH]; intros m row i ND H; [done|].
  apply NoDup_cons in ND as [Out ND].
  destruct row as [|v row].
  - rewrite dict_from_short. apply fill_none_there.
    apply list_elem_of_lookup. eauto.
  - rewrite dict_from_cons. destruct i as [|i].
    + injection H as ->. rewrite (dict_from_other _ _ _ _ Out). apply lookup_insert_eq.
    + apply (IH _ _ i ND H).
Qed.

Lemma dict_row_cells (fieldnames row : list string) (k : string) :
  NoDup fieldnames ->
  (forall i, fieldnames !! i = Some k ->
             dict_row fieldnames row !! k = Some (row !! i))
  /\ (k ∉ fieldnames -> dict_row fieldnames row !! k = None).
Proof.
  intros ND. split.
  - intros i H. rewrite dict_row_from. by apply dict_from_lookup.
  - intros H. rewrite dict_row_from, (dict_from_other _ _ _ _ H). apply lookup_empty.
Qed.

(** X5.  A cell is looked up by the name of its column: with distinct column
    names, the cell of the column at position [i] is the [i]-th cell of
    the row, or [None] when the row ends before it; a name that is not a
    column is not a key. *)
Theorem dict_row_lookup (fieldnames row : list string) (k : string) :
  NoDup fieldnames ->
  (forall i, fieldnames !! i = Some k ->
             dict_row fieldnames row !! k = Some (row !! i))
  /\ (k ∉ fieldnames -> dict_row fieldnames row !! k = None).
Proof. apply dict_row_cells. Qed.

Lemma extract_row_raises (d : gmap string (option string)) (e : exn) :
  extract_row d = Err e
  <-> e = AttributeError
      /\ (d !! "LCSC Part Number" = Some None \/ d !! "Quantity" = Some None).
Proof.
  unfold extract_row, get.
  destruct (d !! "LCSC Part Number") as [[a|]|];
  destruct (d !! "Quantity") as [[b|]|]; cbn [default from_option id];
  split; try (intros [= <-]); try (intros [-> [?|?]]); try discriminate; auto.
Qed.

Lemma column_beyond_row (fieldnames row : list string) (k : string) :
  NoDup fieldnames ->
  (dict_row fieldnames row !! k = Some None
   <-> exists i, fieldnames !! i = Some k /\ (length row <= i)%nat).
Proof.
  intros ND. destruct (dict_row_cells fieldnames row k ND) as [In Out]. split.
  - intros H. destruct (decide (k ∈ fieldnames)) as [E|E].
    + apply list_elem_of_lookup in E as [i Hi]. exists i. split; [exact Hi|].
      rewrite (In i Hi) in H. injection H as H. by apply lookup_ge_None.
    + rewrite (Out E) in H. discriminate.
  - intros (i & Hi & Le). rewrite (In i Hi). f_equal. by apply lookup_ge_None.
Qed.

(** X6.  With distinct column names, the body of the loop raises exactly when
    the header names one of the two columns at a position that the row
    does not reach. *)
Theorem extract_row_raises_on_short_row (fieldnames row : list string) :
  NoDup fieldnames ->
  (extract_row (dict_row fieldnames row) = Err AttributeError
   <-> exists i k, (k = "LCSC Part Number" \/ k = "Quantity")
                   /\ fieldnames !! i = Some k /\ (length row <= i)%nat).
Proof.
  intros ND. rewrite extract_row_raises.
  rewrite !(column_beyond_row _ _ _ ND). split.
  - intros [_ [(i & H)|(i & H)]]; eauto 6.
  - intros (i & k & [-> | ->] & H); split; eauto.
Qed.

Lemma truthy_nonempty (s : string) : truthy s = true -> s <> EmptyString.
Proof. destruct s; [discriminate|done]. Qed.

Lemma extract_row_line (d : gmap string (option string)) (l : string) :
  extract_row d = Ok (Some l) -> well_formed_line l.
Proof.
  unfold extract_row.
  destruct (get d "LCSC Part Number") as [a|]; [|discriminate].
  destruct (get d "Quantity") as [b|]; [|discriminate].
  destruct (truthy (strip a)) eqn:Ta; [|discriminate].
  destruct (truthy (strip b)) eqn:Tb; [|discriminate].
  intros [= <-]. exists (strip a), (strip b).
  rewrite !strip_idempotent. auto using truthy_nonempty.
Qed.

Lemma write_rows_lines (fieldnames : list string) (rows : list (list string))
    (out : list string) :
  Forall well_formed_line out ->
  Forall well_formed_line (write_rows fieldnames rows out).1
  /\ (length (write_rows fieldnames rows out).1 <= length out + length rows)%nat.
Proof.
  revert out. induction rows as [|row rows IH]; intros out H.
  - simpl. split; [exact H|lia].
  - destruct row as [|f row].
    + cbn [write_rows]. destruct (IH out H) as [H1 H2]. split; [exact H1|simpl; lia].
    + cbn [write_rows].
      destruct (extract_row (dict_row fieldnames (f :: row))) as [[l|]|e] eqn:E.
      * apply extract_row_line in E.
        destruct (IH (out ++ [l])) as [H1 H2].
        { apply Forall_app. split; [exact H|]. constructor; [exact E|constructor]. }
        split; [exact H1|]. rewrite length_app in H2. simpl in *. lia.
      * destruct (IH out H) as [H1 H2]. split; [exact H1|simpl; lia].
      * simpl. split; [exact H|lia].
Qed.

(** X7.  Whatever the table, and also when the run ends in an exception, each
    line written holds two non-empty trimmed fields, and there are no
    more lines than rows after the header. *)
Theorem extract_lines_well_formed (table : list (list string)) :
  Forall well_formed_line (extract_lcsc_and_quantity table).1
  /\ (length (extract_lcsc_and_quantity table).1 <= length table - 1)%nat.
Proof.
  destruct table as [|fieldnames rows]; [split; [constructor|simpl; lia]|].
  unfold extract_lcsc_and_quantity.
  destruct (write_rows_lines fieldnames rows []) as [H1 H2]; [constructor|].
  split; [exact H1|]. simpl in *. lia.
Qed.

Lemma prefix_append (p x : string) : String.prefix p (p +:+ x) = true.
Proof.
  induction p as [|c p IH]; [destruct x; reflexivity|].
  rewrite append_cons. cbn [String.prefix].
  destruct (ascii_dec c c); [exact IH|done].
Qed.

Lemma append_assoc (a b c : string) : (a +:+ b) +:+ c = a +:+ (b +:+ c).
Proof.
  induction a as [|x a IH]; [reflexivity|].
  rewrite !append_cons, IH. reflexivity.
Qed.

Lemma skip_append (p x : string) : skip (String.length p) (p +:+ x) = x.
Proof.
  induction p as [|c p IH]; [destruct x; reflexivity|].
  rewrite append_cons. exact IH.
Qed.

Lemma contains_prefix (sub s : string) :
  String.prefix sub s = true -> contains sub s = true.
Proof. intros H. destruct s; cbn [contains]; rewrite H; reflexivity. Qed.

Lemma contains_later (sub : string) (c : ascii) (s : string) :
  contains sub s = true -> contains sub (String c s) = true.
Proof. intros H. cbn [contains]. rewrite H. apply orb_true_r. Qed.

Lemma take_digits_digits (s : string) : all_chars is_digit (take_digits s) = true.
Proof.
  induction s as [|c s IH]; [reflexivity|]. cbn [take_digits].
  destruct (is_digit c) eqn:D; [|reflexivity]. cbn [all_chars]. by rewrite D, IH.
Qed.

Lemma take_digits_split (s : string) :
  s = take_digits s +:+ skip (String.length (take_digits s)) s.
Proof.
  induction s as [|c s IH]; [reflexivity|]. cbn [take_digits].
  destruct (is_digit c); [|reflexivity].
  rewrite append_cons. cbn [String.length skip]. f_equal. exact IH.
Qed.

Lemma take_digits_append (ds : string) (c : ascii) (r : string) :
  all_chars is_digit ds = true -> is_digit c = false ->
  take_digits (ds +:+ String c r) = ds.
Proof.
  intros D C. induction ds as [|d ds IH].
  - change ("" +:+ String c r) with (String c r). cbn [take_digits]. by rewrite C.
  - cbn [all_chars] in D. apply andb_prop in D as [D1 D2].
    rewrite append_cons. cbn [take_digits]. rewrite D1, (IH D2). reflexivity.
Qed.

Lemma re_search_part_id_here (s ds : string) :
  part_id_here s = Some ds -> re_search_part_id s = Some ds.
Proof. intros H. destruct s; cbn [re_search_part_id]; rewrite H; reflexivity. Qed.

Lemma part_id_here_sound (s ds : string) :
  part_id_here s = Some ds ->
  ds <> EmptyString /\ all_chars is_digit ds = true
  /\ String.prefix ("/en/part/" +:+ ds +:+ "/") s = true.
Proof.
  unfold part_id_here.
  destruct (String.prefix "/en/part/" s) eqn:Pre; [|discriminate].
  destruct (truthy (take_digits (skip 9 s))) eqn:T; [|discriminate].
  destruct (String.prefix "/" _) eqn:Sl; [|discriminate].
  cbn [andb]. intros [= <-].
  split; [by apply truthy_nonempty|]. split; [apply take_digits_digits|].
  apply prefix_skip in Pre. apply prefix_skip in Sl.
  change (String.length "/en/part/") with 9%nat in Pre.
  pose proof (take_digits_split (skip 9 s)) as Sp.
  rewrite Sl in Sp. rewrite Sp in Pre. rewrite Pre at 2.
  set (ds := take_digits (skip 9 s)).
  generalize (skip (String.length "/") (skip (String.length ds) (skip 9 s))).
  intros rest.
  replace ("/en/part/" +:+ ds +:+ "/" +:+ rest)
    with (("/en/part/" +:+ ds +:+ "/") +:+ rest).
  - apply prefix_append.
  - rewrite !append_assoc. reflexivity.
Qed.

(** X9.  The part id that [check_part_exists] takes from a link is a
    non-empty run of digits that the address shows between [/en/part/]
    and a slash. *)
Theorem re_search_part_id_sound (href part_id : string) :
  re_search_part_id href = Some part_id ->
  part_id <> EmptyString /\ all_chars is_digit part_id = true
  /\ contains ("/en/part/" +:+ part_id +:+ "/") href = true.
Proof.
  induction href as [|c h IH]; cbn [re_search_part_id].
  - destruct (part_id_here "") eqn:E; [|discriminate]. intros [= ->].
    apply part_id_here_sound in E as (H1 & H2 & H3).
    auto using contains_prefix.
  - destruct (part_id_here (String c h)) eqn:E.
    + intros [= ->]. apply part_id_here_sound in E as (H1 & H2 & H3).
      auto using contains_prefix.
    + intros H. destruct (IH H) as (H1 & H2 & H3). auto using contains_later.
Qed.

(** X10.  The address of a part page gives back the number of the part. *)
Theorem re_search_part_id_of_part_link (part_id rest : string) :
  part_id <> EmptyString -> all_chars is_digit part_id = true ->
  re_search_part_id ("/en/part/" +:+ part_id +:+ "/" +:+ rest) = Some part_id.
Proof.
  intros N D. apply re_search_part_id_here. unfold part_id_here.
  rewrite prefix_append.
  change (skip 9) with (skip (String.length "/en/part/")).
  rewrite (skip_append "/en/part/" (part_id +:+ "/" +:+ rest)).
  change ("/" +:+ rest) with (String "/" rest).
  rewrite (take_digits_append part_id "/" rest D); [|reflexivity].
  rewrite skip_append. cbn [String.prefix].
  destruct part_id; [done|]. destruct rest; reflexivity.
Qed.

Lemma split_arrow_cons (c : ascii) (s : string) :
  split_arrow (String c s)
  = if starts_arrow (String c s) then EmptyString :: split_arrow (skip 1 s)
    else match split_arrow s with
         | seg :: segs => String c seg :: segs
         | [] => [String c EmptyString]
         end.
Proof.
  cbn [split_arrow starts_arrow]. destruct s as [|d s].
  - destruct (Ascii.eqb c "-"); reflexivity.
  - destruct (Ascii.eqb c "-"); [|reflexivity].
    destruct (Ascii.eqb d ">"); reflexivity.
Qed.

Lemma first_segment_head (s seg : string) (segs : list string) (d : ascii) (r : string) :
  split_arrow s = String d r :: segs -> exists r', s = String d r'.
Proof.
  destruct s as [|c s]; [discriminate|]. rewrite split_arrow_cons.
  destruct (starts_arrow (String c s)); [discriminate|].
  destruct (split_arrow s); intros [= -> _]; eauto.
Qed.

Lemma split_arrow_segments_bounded (n : nat) (s : string) :
  (String.length s <= n)%nat ->
  Forall (fun seg => contains "->" seg = false) (split_arrow s).
Proof.
  revert s. induction n as [|n IH]; intros s Len.
  - destruct s; [|simpl in Len; lia]. repeat constructor.
  - destruct s as [|c s]; [repeat constructor|]. simpl in Len.
    rewrite split_arrow_cons. destruct (starts_arrow (String c s)) eqn:A.
    + constructor; [reflexivity|]. apply IH.
      destruct s as [|d s]; simpl in *; lia.
    + pose proof (IH s ltac:(lia)) as H.
      destruct (split_arrow s) as [|seg segs] eqn:E;
        [by apply split_arrow_nonempty in E|].
      apply Forall_cons in H as [H1 H2]. constructor; [|exact H2].
      rewrite contains_arrow_cons, H1, orb_false_r.
      destruct seg as [|d r]; [reflexivity|].
      destruct (first_segment_head _ "" _ _ _ E) as [r' ->]. exact A.
Qed.

(** No segment of a split holds the separator. *)
Lemma split_arrow_segments (s : string) :
  Forall (fun seg => contains "->" seg = false) (split_arrow s).
Proof. apply (split_arrow_segments_bounded (String.length s)). lia. Qed.

Lemma clean_component_strip (seg : string) :
  contains "->" seg = false -> clean_component (strip seg).
Proof. intros H. split; [apply strip_idempotent|by apply no_arrow_strip]. Qed.

Lemma last_clean (l : list string) :
  Forall clean_component l -> clean_component (List.last l EmptyString).
Proof.
  induction l as [|x [|y l] IH]; intros H.
  - split; reflexivity.
  - by apply Forall_cons in H as [H _].
  - apply IH. by apply Forall_cons in H as [_ H].
Qed.

Lemma path_clean (l : list string) :
  Forall clean_component l ->
  clean_component (Spec.path l).1 /\ clean_component (Spec.path l).2.
Proof.
  assert (clean_component "") as E by (split; reflexivity).
  intros H. destruct l as [|a [|b l]]; cbn [Spec.path fst snd].
  - auto.
  - apply Forall_cons in H as [H _]. auto.
  - split; [by apply Forall_cons in H as [H _]|by apply last_clean].
Qed.

(** X11.  Both components of a parsed category are trimmed and hold no
    separator. *)
Theorem parse_lcsc_category_clean (help_text : string) :
  clean_component (parse_lcsc_category help_text).1
  /\ clean_component (parse_lcsc_category help_text).2.
Proof.
  rewrite parse_lcsc_category_closed. unfold Spec.category_line_path.
  destruct (after_first "Provider:" help_text) as [r|]; [|split; split; reflexivity].
  apply path_clean. apply Forall_fmap.
  eapply Forall_impl; [apply split_arrow_segments|].
  intros seg H. by apply clean_component_strip.
Qed.

Lemma after_first_prefix (sub s : string) :
  String.prefix sub s = true ->
  after_first sub s = Some (skip (String.length sub) s).
Proof. intros H. destruct s; cbn [after_first]; rewrite H; reflexivity. Qed.

Lemma append_empty_l (s : string) : EmptyString +:+ s = s.
Proof. reflexivity. Qed.

Lemma take_line_cons (c : ascii) (s : string) :
  take_line (String c s) = String c s ->
  Ascii.eqb c newline = false /\ take_line s = s.
Proof.
  cbn [take_line]. destruct (Ascii.eqb c newline); [discriminate|].
  intros [= H]. auto.
Qed.

Lemma take_line_append (a b : string) :
  take_line a = a -> take_line (a +:+ b) = a +:+ take_line b.
Proof.
  induction a as [|c a IH]; intros H; [reflexivity|].
  apply take_line_cons in H as [N H]. rewrite !append_cons.
  cbn [take_line]. rewrite N, (IH H). reflexivity.
Qed.

Lemma ends_in_space_cons (c d : ascii) (s : string) :
  ends_in_space (String c (String d s)) = ends_in_space (String d s).
Proof. reflexivity. Qed.

Lemma ends_in_space_append (a : string) (d : ascii) (b : string) :
  ends_in_space (a +:+ String d b) = ends_in_space (String d b).
Proof.
  induction a as [|c a IH]; [reflexivity|].
  rewrite append_cons. destruct a as [|c' a].
  - rewrite append_empty_l. apply ends_in_space_cons.
  - rewrite append_cons in *. rewrite ends_in_space_cons. exact IH.
Qed.

Lemma no_arrow_append_char (a : string) (c : ascii) :
  contains "->" a = false -> Ascii.eqb c ">" = false ->
  contains "->" (a +:+ String c EmptyString) = false.
Proof.
  intros H C. induction a as [|x a IH].
  - rewrite append_empty_l, contains_arrow_cons. reflexivity.
  - rewrite contains_arrow_cons in H. apply orb_false_elim in H as [H1 H2].
    rewrite append_cons, contains_arrow_cons, (IH H2), orb_false_r.
    destruct a as [|y a].
    + rewrite append_empty_l. cbn [starts_arrow]. rewrite C. apply andb_false_r.
    + rewrite append_cons. exact H1.
Qed.

Lemma split_arrow_at_first (a b : string) :
  contains "->" a = false ->
  split_arrow (a +:+ "->" +:+ b) = a :: split_arrow b.
Proof.
  intros H. induction a as [|x a IH].
  - rewrite append_empty_l. change ("->" +:+ b) with (String "-" (String ">" b)).
    rewrite split_arrow_cons. reflexivity.
  - rewrite contains_arrow_cons in H. apply orb_false_elim in H as [H1 H2].
    rewrite append_cons, split_arrow_cons, (IH H2).
    destruct a as [|y a].
    + rewrite append_empty_l. change ("->" +:+ b) with (String "-" (String ">" b)).
      cbn [starts_arrow]. rewrite andb_false_r. reflexivity.
    + rewrite append_cons.
      change (starts_arrow (String x (String y (a +:+ "->" +:+ b))))
        with (starts_arrow (String x (String y a))).
      rewrite H1. reflexivity.
Qed.

Lemma is_empty_append (a : string) (c : ascii) (b : string) :
  is_empty (a +:+ String c b) = false.
Proof. destruct a; reflexivity. Qed.

Lemma rstrip_append (a b : string) :
  rstrip (a +:+ b)
  = if is_empty (rstrip b) then rstrip a else a +:+ rstrip b.
Proof.
  induction a as [|c a IH].
  - rewrite append_empty_l. destruct (rstrip b); reflexivity.
  - rewrite append_cons, !rstrip_cons, IH.
    destruct (rstrip b) as [|d r]; cbn [is_empty]; [reflexivity|].
    rewrite is_empty_append, andb_false_r, append_cons. reflexivity.
Qed.

(** A non-empty trimmed text begins and ends with a character that is
    not white space. *)
Lemma trimmed_shape (s : string) :
  strip s = s -> s <> EmptyString ->
  exists c r, s = String c r /\ is_space c = false /\ ends_in_space s = false.
Proof.
  intros T N. pose proof (strip_ends s) as E. rewrite T in E.
  destruct (strip_shape s) as [Z|(c & r & Eq & Sp)]; rewrite T in *; [done|eauto].
Qed.

Lemma strip_space_after (s : string) :
  strip s = s -> strip (s +:+ " ") = s.
Proof.
  intros T. destruct s as [|c r]; [reflexivity|].
  destruct (trimmed_shape _ T ltac:(done)) as (c' & r' & [= <- <-] & Sp & E).
  unfold strip. rewrite append_cons, (lstrip_head _ _ Sp), <- append_cons.
  rewrite rstrip_append. change (rstrip " ") with "". cbn [is_empty].
  apply rstrip_fixed, E.
Qed.

Lemma strip_space_before (s : string) : strip (String " " s) = strip s.
Proof. reflexivity. Qed.

Lemma category_line_of_label (label : string) :
  Spec.category_line_path ("Provider: " +:+ label)
  = Spec.path (map strip (split_arrow (strip (take_line (lstrip label))))).
Proof.
  unfold Spec.category_line_path.
  change ("Provider: " +:+ label) with ("Provider:" +:+ String " " label).
  rewrite (after_first_prefix _ _ (prefix_append _ _)), skip_append. reflexivity.
Qed.

(** X12.  The category typed into the form names the path it was built from:
    parsing the label of a path with a non-empty leaf, whose components
    are trimmed single lines without separator, gives the path back. *)
Theorem parse_of_category_label (parent leaf : string) :
  clean_component parent -> clean_component leaf -> leaf <> EmptyString ->
  take_line parent = parent -> take_line leaf = leaf ->
  parse_lcsc_category ("Provider: " +:+ category_label parent leaf) = (parent, leaf).
Proof.
  intros [Tp Ap] [Tl Al] Nl Lp Ll.
  rewrite parse_lcsc_category_closed, category_line_of_label.
  destruct (trimmed_shape _ Tl Nl) as (c & r & El & Sc & Ec).
  unfold category_label. destruct parent as [|p ps]; cbn [truthy is_empty negb].
  - rewrite El, (lstrip_head _ _ Sc), <- El, Ll.
    rewrite Tl, (split_arrow_no_arrow _ Al). cbn [map Spec.path]. by rewrite Tl.
  - destruct (trimmed_shape _ Tp ltac:(done)) as (p' & ps' & [= <- <-] & Sp & Ep).
    set (par := String p ps) in *.
    assert (strip (par +:+ " -> " +:+ leaf) = par +:+ " -> " +:+ leaf) as St.
    { unfold par. rewrite append_cons. apply strip_fixed; [exact Sp|].
      rewrite <- append_cons. fold par.
      change (" -> " +:+ leaf) with (" -> " +:+ leaf).
      rewrite El. rewrite <- (append_assoc par " -> " (String c r)).
      rewrite ends_in_space_append. rewrite <- El. exact Ec. }
    assert (lstrip (par +:+ " -> " +:+ leaf) = par +:+ " -> " +:+ leaf) as Ls.
    { unfold par. rewrite append_cons. apply lstrip_head, Sp. }
    assert (take_line (par +:+ " -> " +:+ leaf) = par +:+ " -> " +:+ leaf) as Tk.
    { rewrite (take_line_append _ _ Lp). f_equal.
      rewrite (take_line_append " -> " leaf eq_refl), Ll. reflexivity. }
    rewrite Ls, Tk, St.
    replace (par +:+ " -> " +:+ leaf) with ((par +:+ " ") +:+ "->" +:+ String " " leaf)
      by (rewrite append_assoc; reflexivity).
    rewrite split_arrow_at_first; [|by apply no_arrow_append_char].
    rewrite split_arrow_no_arrow.
    + cbn [map Spec.path List.hd List.last].
      rewrite (strip_space_after _ Tp), strip_space_before, Tl. reflexivity.
    + rewrite contains_arrow_cons, Al, orb_false_r, El. reflexivity.
Qed.

Lemma parse_of_category_label_witness :
  parse_lcsc_category
    ("Provider: " +:+ category_label "Circuit Protection" "Varistors, MOVs")
  = ("Circuit Protection", "Varistors, MOVs").
Proof.
  apply parse_of_category_label; try reflexivity; try (split; reflexivity).
  discriminate.
Defined.

Section RunExtras.
Context {W : Type} (P : ops W).

(** X13.  A part is reported as skipped exactly when the duplicate check found
    it, and then nothing is done on the page after the check. *)
Theorem process_single_part_skipped (lcsc_id : string) (amount : Z) (w : W) :
  ((process_single_part P lcsc_id amount w).2 = "skipped"
   <-> (check_part_exists P lcsc_id w).2 = true)
  /\ ((check_part_exists P lcsc_id w).2 = true ->
      process_single_part P lcsc_id amount w
      = ((check_part_exists P lcsc_id w).1, "skipped")).
Proof.
  unfold process_single_part, process_single_part_body, bind.
  destruct (check_part_exists P lcsc_id w) as [w1 [|]]; cbn [fst snd].
  - split; [split|]; reflexivity.
  - split; [|discriminate]. split; [|discriminate].
    destruct (create_part P lcsc_id amount w1) as [w2 [st|e]] eqn:C; cbn [snd].
    + apply create_part_status in C as [->| ->]; discriminate.
    + discriminate.
Qed.

Ltac step :=
  match goal with
  | |- context [match ?x with _ => _ end] =>
      lazymatch x with
      | context [match _ with _ => _ end] => fail
      | _ => destruct x eqn:?
      end
  end.

(** X14.  [success] is reported only after the amount, as a decimal numeral,
    was entered into the amount field, the save button was clicked and
    the page then settled, none of these calls raising. *)
Theorem create_part_success (lcsc_id : string) (amount : Z) (w w' : W) :
  create_part P lcsc_id amount w = (w', Ok "success") ->
  (exists w0 w1,
     fill P (Last (Css (Raw "input[name*=[partLots]][name*=[amount][value]]")))
       (pretty amount) w0 = (w1, Ok tt))
  /\ (exists w0 w1,
        click P (Css SELECTOR_SAVE) w0 = (w1, Ok tt)
        /\ wait_for_load_state P 10000 w1 = (w', Ok tt)).
Proof.
  unfold create_part, bind, ret, try_except, try_except_timeout, get_url.
  repeat (step; try discriminate); intros [= <-];
    repeat match goal with u : unit |- _ => destruct u end;
    split; eauto.
Qed.

(** X15.  The option clicked as an existing category is one of the options
    listed, and its text equals the category typed when case and the
    white space around it are ignored. *)
Theorem find_exact_match_sound (lcsc_category : string) (options : list locator)
    (w w' : W) (option : locator) :
  find_exact_match P lcsc_category options w = (w', Ok (Some option)) ->
  option ∈ options
  /\ exists w0 inner, inner_text P option w0 = (w', Ok inner)
                      /\ lower (strip inner) = lower lcsc_category.
Proof.
  revert w. induction options as [|o options IH]; intros w; [discriminate|].
  cbn [find_exact_match]. unfold bind at 1.
  destruct (inner_text P o w) as [w1 [inner|e]] eqn:T; [|discriminate].
  destruct (String.eqb_spec (lower (strip inner)) (lower lcsc_category)) as [M|_].
  - intros [= <- <-]. split; [apply list_elem_of_here|eauto].
  - intros H. destruct (IH _ H) as [In Hx]. split; [by apply list_elem_of_further|exact Hx].
Qed.

Lemma authenticate_exit_code (w w' : W) (code : Z) :
  authenticate P w = (w', SysExit code) -> code = 1.
Proof.
  unfold authenticate.
  repeat (step; try discriminate); intros [= _ <-]; reflexivity.
Qed.

(** Once the arguments are parsed, the exit status is 0 or 1, and it is
    0 exactly when the authentication succeeded, the file exists and
    holds a valid row, and the browser closed without raising. *)
Lemma main_try_exit_status (file : option (list (list string))) (w : W) :
  ((main P file w).2 = 0 \/ (main P file w).2 = 1)
  /\ ((main P file w).2 = 0
      <-> exists w1 rows w3,
            authenticate P w = (w1, Done tt) /\ file = Some rows
            /\ (load_parts_csv rows).1 <> []
            /\ cleanup P (import_parts P (load_parts_csv rows).1 w1 init_tallies).1
               = (w3, Ok tt)).
Proof.
  unfold main, fatal.
  destruct (authenticate P w) as [w1 [[]|e|code]] eqn:A; cbn [snd].
  - destruct file as [rows|]; cbn [snd].
    + destruct (load_parts_csv rows).1 as [|p parts] eqn:L; cbn [snd].
      * split; [auto|]. split; [discriminate|].
        intros (? & ? & ? & [= <-] & [= <-] & N & _). by rewrite L in N.
      * destruct (import_parts P (p :: parts) w1 init_tallies) as [w2 t] eqn:I.
        destruct (cleanup P w2) as [w3 [[]|e]] eqn:C; cbn [snd].
        -- split; [auto|]. split; [|reflexivity]. intros _.
           exists w1, rows, w3. rewrite L, I. cbn [fst]. rewrite C. split; [|split; [|split]]; done.
        -- split; [auto|]. split; [discriminate|].
           intros (? & ? & ? & [= <-] & [= <-] & _ & C'). rewrite L, I in C'.
           cbn [fst] in C'. rewrite C in C'. discriminate.
    + split; [auto|]. split; [discriminate|]. intros (? & ? & ? & _ & ? & _). discriminate.
  - split; [auto|]. split; [discriminate|]. intros (? & ? & ? & ? & _). discriminate.
  - apply authenticate_exit_code in A as ->.
    split; [auto|]. split; [discriminate|]. intros (? & ? & ? & ? & _). discriminate.
Qed.

(** X16.  The exit status of [main] is 0, 1 or 2.  It is 2 exactly when
    the command line is refused, and then nothing is done on the page,
    as after a request for help.  It is 0 exactly when help was asked
    for, or the arguments were accepted, the authentication succeeded,
    the file exists and holds a valid row, and the browser closed
    without raising; how many parts failed has no part in it. *)
Theorem main_with_args_exit_status (args : parse_args_result)
    (files : string -> option (list (list string))) (w : W) :
  let status := (main_with_args P args files w).2 in
  (status = 0 \/ status = 1 \/ status = 2)
  /\ (status = 2 <-> args = UsageError)
  /\ (status = 0
      <-> args = HelpPrinted
          \/ exists csv_path base_url log_level w1 rows w3,
               args = Namespace csv_path base_url log_level
               /\ authenticate P w = (w1, Done tt) /\ files csv_path = Some rows
               /\ (load_parts_csv rows).1 <> []
               /\ cleanup P (import_parts P (load_parts_csv rows).1 w1 init_tallies).1
                  = (w3, Ok tt))
  /\ (args = UsageError \/ args = HelpPrinted -> (main_with_args P args files w).1 = w).
Proof.
  intros status. subst status.
  destruct args as [csv_path base_url log_level| |]; cbn [main_with_args fst snd].
  - destruct (main_try_exit_status (files csv_path) w) as [Range Zero].
    split; [tauto|]. split; [split; [lia|discriminate]|].
    split; [|intros [?|?]; discriminate].
    rewrite Zero. split.
    + intros (w1 & rows & w3 & H). right. exists csv_path, base_url, log_level, w1, rows, w3.
      tauto.
    + intros [?|(c & b & l & w1 & rows & w3 & [= <- <- <-] & H)]; [discriminate|].
      exists w1, rows, w3. exact H.
  - split; [auto|]. split; [tauto|]. split; [|reflexivity].
    split; [discriminate|]. intros [?|(? & ? & ? & ? & ? & ? & ? & _)]; discriminate.
  - split; [auto|]. split; [split; discriminate|]. split; [|reflexivity].
    split; [auto|reflexivity].
Qed.

(** X17.  From any tallies, [import_parts] adds the number of parts to the sum
    of the counters, appends the failed identifiers to the list in the
    order of the parts, and keeps the list as long as [fail_count] when
    it was so before. *)
Theorem import_parts_accumulates (parts : list (string * Z)) (w : W) (t : tallies) :
  let t' := (import_parts P parts w t).2 in
  let failed := failed_ids (zip parts.*1 (outcomes P parts w)) in
  total t' = total t + Z.of_nat (length parts)
  /\ failed_parts t' = failed_parts t ++ failed
  /\ fail_count t' = fail_count t + Z.of_nat (length failed)
  /\ (Z.of_nat (length (failed_parts t)) = fail_count t ->
      Z.of_nat (length (failed_parts t')) = fail_count t').
Proof.
  intros t' failed. subst t'. rewrite import_parts_tallies.
  rewrite tally_all_total, tally_all_failed_parts, tally_all_fail_count.
  fold failed. rewrite length_zip, length_fmap, outcomes_length.
  split; [lia|]. split; [reflexivity|]. split; [reflexivity|].
  rewrite length_app. lia.
Qed.

End RunExtras.

Lemma all_static (s : site) (l : locator) (w : world) :
  all (static_ops s) l w
  = (w, Ok (map (Nth l) (seq 0 (length (resolve l (shown s w)))))).
Proof. reflexivity. Qed.

(** X18.  On a static site whose search page shows one part link, the matcher
    opens the suppliers of that part and its verdict is whether one of
    the links to lcsc.com that name the target shows the target as its
    trimmed text. *)
Theorem check_part_exists_single_result (s : site) (lcsc_id href text part_id : string)
    (w : world) :
  broken s (SearchUrl lcsc_id) = false ->
  broken s (SuppliersUrl part_id) = false ->
  List.filter (selects ["/en/part/"; "/info"]) (anchors s (SearchUrl lcsc_id))
  = [(href, text)] ->
  re_search_part_id href = Some part_id ->
  check_part_exists (static_ops s) lcsc_id w
  = (Some (SuppliersUrl part_id),
     existsb (fun a => link_text_matches lcsc_id a.2)
       (supplier_links lcsc_id (anchors s (SuppliersUrl part_id)))).
Proof.
  intros B1 B2 F R.
  unfold check_part_exists, check_part_exists_body, bind.
  cbn [goto static_ops]. rewrite B1, all_static.
  cbn [shown resolve]. rewrite F.
  cbn [length seq map check_part_links]. unfold bind.
  cbn [get_attribute static_ops]. unfold the_element.
  cbn [shown resolve]. rewrite F. cbn [lookup list_lookup fst snd].
  change (String.eqb "href" "href") with true. cbn iota. rewrite R.
  rewrite (check_candidate_static s lcsc_id part_id _ B2).
  destruct (existsb _ _); reflexivity.
Qed.

Lemma check_part_exists_single_result_witness :
  check_part_exists
    (static_ops (catalog [("https://www.lcsc.com/product-detail/C1991.html", "C1991")]))
    "C1991" None
  = (Some (SuppliersUrl "8"), true).
Proof.
  apply (check_part_exists_single_result
           (catalog [("https://www.lcsc.com/product-detail/C1991.html", "C1991")])
           "C1991" "/en/part/8/info" "A part" "8" None); reflexivity.
Defined.

(** On a static site, when the first search result is rejected and its
    page of suppliers shows fewer than two part links, the search results
    after the first are not examined: the locator of the second one is
    resolved on that page, the call times out and the answer is
    [False]. *)
Lemma later_results_not_examined (s : site) (lcsc_id href text part_id : string)
    (second : string * string) (more : list (string * string)) (w : world) :
  broken s (SearchUrl lcsc_id) = false ->
  broken s (SuppliersUrl part_id) = false ->
  List.filter (selects ["/en/part/"; "/info"]) (anchors s (SearchUrl lcsc_id))
  = (href, text) :: second :: more ->
  re_search_part_id href = Some part_id ->
  existsb (fun a => link_text_matches lcsc_id a.2)
    (supplier_links lcsc_id (anchors s (SuppliersUrl part_id))) = false ->
  (length (List.filter (selects ["/en/part/"; "/info"])
             (anchors s (SuppliersUrl part_id))) <= 1)%nat ->
  check_part_exists_body (static_ops s) lcsc_id w
  = (Some (SuppliersUrl part_id), Err PlaywrightTimeout)
  /\ check_part_exists (static_ops s) lcsc_id w = (Some (SuppliersUrl part_id), false).
Proof.
  intros B1 B2 F R Rej Few.
  assert (check_part_exists_body (static_ops s) lcsc_id w
          = (Some (SuppliersUrl part_id), Err PlaywrightTimeout)) as Body.
  { unfold check_part_exists_body, bind.
    cbn [goto static_ops]. rewrite B1, all_static.
    cbn [shown resolve]. rewrite F.
    cbn [length seq map check_part_links]. unfold bind.
    cbn [get_attribute static_ops]. unfold the_element.
    cbn [shown resolve]. rewrite F. cbn [lookup list_lookup fst snd].
    change (String.eqb "href" "href") with true. cbn iota. rewrite R.
    rewrite (check_candidate_static s lcsc_id part_id _ B2), Rej.
    cbn [shown resolve].
    destruct (List.filter _ (anchors s (SuppliersUrl part_id))) as [|a [|b l]];
      [reflexivity|reflexivity|simpl in Few; lia]. }
  split; [exact Body|]. unfold check_part_exists. rewrite Body. reflexivity.
Qed.

Lemma later_results_not_examined_witness :
  check_part_exists_body (static_ops two_results) "C1991" None
  = (Some (SuppliersUrl "8"), Err PlaywrightTimeout)
  /\ check_part_exists (static_ops two_results) "C1991" None
     = (Some (SuppliersUrl "8"), false).
Proof.
  apply (later_results_not_examined two_results "C1991" "/en/part/8/info" "First part"
           "8" ("/en/part/9/info", "Second part") [] None);
    try reflexivity.
  simpl. lia.
Defined.

(** X3.  Each row gives either one request or one warning, never both and
    never neither. *)
Theorem load_parts_csv_one_outcome_per_row (rows : list (list string)) :
  (length (load_parts_csv rows).1 + length (load_parts_csv rows).2 = length rows)%nat.
Proof. apply load_parts_csv_counts. Qed.

Lemma link_text_matches_identifier_witness :
  link_text_matches "C1991" "C19915" = true <-> "C19915" = "C1991".
Proof. apply link_text_matches_identifier. reflexivity. Defined.

Lemma NoDup_export_header : NoDup ["LCSC Part Number"; "Description"; "Quantity"].
Proof. repeat constructor; rewrite ?elem_of_cons, ?elem_of_nil; intuition discriminate. Qed.

Lemma dict_row_lookup_witness :
  dict_row ["LCSC Part Number"; "Description"; "Quantity"] ["C1"; "cap"]
    !! "LCSC Part Number" = Some (Some "C1")
  /\ dict_row ["LCSC Part Number"; "Description"; "Quantity"] ["C1"; "cap"]
       !! "Quantity" = Some None
  /\ dict_row ["LCSC Part Number"; "Description"; "Quantity"] ["C1"; "cap"]
       !! "Price" = None.
Proof.
  split; [|split].
  - destruct (dict_row_lookup ["LCSC Part Number"; "Description"; "Quantity"]
                ["C1"; "cap"] "LCSC Part Number" NoDup_export_header) as [H _].
    apply (H 0%nat). reflexivity.
  - destruct (dict_row_lookup ["LCSC Part Number"; "Description"; "Quantity"]
                ["C1"; "cap"] "Quantity" NoDup_export_header) as [H _].
    apply (H 2%nat). reflexivity.
  - destruct (dict_row_lookup ["LCSC Part Number"; "Description"; "Quantity"]
                ["C1"; "cap"] "Price" NoDup_export_header) as [_ H].
    apply H. rewrite !elem_of_cons, elem_of_nil. intuition discriminate.
Defined.

Lemma extract_row_raises_on_short_row_witness :
  extract_row (dict_row ["LCSC Part Number"; "Description"; "Quantity"] ["C1"; "cap"])
  = Err AttributeError
  <-> exists i k, (k = "LCSC Part Number" \/ k = "Quantity")
                  /\ ["LCSC Part Number"; "Description"; "Quantity"] !! i = Some k
                  /\ (length ["C1"; "cap"] <= i)%nat.
Proof. apply extract_row_raises_on_short_row, NoDup_export_header. Defined.

(** X8.  When no row is shorter than the header up to the two named
    columns, the extractor writes one line per row that has both fields
    non-blank, in the order of the rows, skips the other rows and the
    blank lines, and does not raise. *)
Theorem extract_without_short_row (fieldnames : list string)
    (rows : list (list string)) :
  Forall (fun row => row = [] \/ Spec.cells_present (dict_row fieldnames row)) rows ->
  extract_lcsc_and_quantity (fieldnames :: rows)
  = (omap (Spec.row_line fieldnames) rows, None).
Proof. intros H. apply (write_rows_present fieldnames rows [] H). Qed.

Lemma extract_without_short_row_witness :
  extract_lcsc_and_quantity
    [["Quantity"; "LCSC Part Number"]; ["5"; " C1 "]; []; [""; "C2"]; ["7"; "C3"; "more"]]
  = (omap (Spec.row_line ["Quantity"; "LCSC Part Number"])
       [["5"; " C1 "]; []; [""; "C2"]; ["7"; "C3"; "more"]], None).
Proof.
  apply extract_without_short_row.
  repeat (apply Forall_cons; split;
          [first [by left | right; split; vm_compute; congruence]|]).
  by apply Forall_nil.
Defined.

Lemma re_search_part_id_sound_witness :
  "8" <> EmptyString /\ all_chars is_digit "8" = true
  /\ contains ("/en/part/" +:+ "8" +:+ "/") "https://parts.example/en/part/8/info" = true.
Proof. apply re_search_part_id_sound. reflexivity. Defined.

Lemma re_search_part_id_of_part_link_witness :
  re_search_part_id ("/en/part/" +:+ "1024" +:+ "/" +:+ "info") = Some "1024".
Proof. apply re_search_part_id_of_part_link; [discriminate|reflexivity]. Defined.

Lemma process_single_part_skipped_witness :
  process_single_part
    (static_ops (catalog [("https://www.lcsc.com/product-detail/C1991.html", "C1991")]))
    "C1991" 5 None
  = ((check_part_exists
        (static_ops (catalog [("https://www.lcsc.com/product-detail/C1991.html", "C1991")]))
        "C1991" None).1, "skipped").
Proof.
  apply (process_single_part_skipped
           (static_ops (catalog [("https://www.lcsc.com/product-detail/C1991.html", "C1991")]))
           "C1991" 5 None).
  reflexivity.
Defined.

Lemma create_part_success_witness :
  (exists w0 w1,
     fill (static_ops (catalog []))
       (Last (Css (Raw "input[name*=[partLots]][name*=[amount][value]]")))
       (pretty 5) w0 = (w1, Ok tt))
  /\ (exists w0 w1,
        click (static_ops (catalog [])) (Css SELECTOR_SAVE) w0 = (w1, Ok tt)
        /\ wait_for_load_state (static_ops (catalog [])) 10000 w1
           = (Some (CreateUrl "C1"), Ok tt)).
Proof.
  apply (create_part_success (static_ops (catalog [])) "C1" 5 None). reflexivity.
Defined.

Lemma find_exact_match_sound_witness :
  Nth (Css (AnchorHref ["lcsc.com"])) 0 ∈ [Nth (Css (AnchorHref ["lcsc.com"])) 0]
  /\ exists w0 inner,
       inner_text (static_ops (catalog [("https://www.lcsc.com/", " Resistors ")]))
         (Nth (Css (AnchorHref ["lcsc.com"])) 0) w0
       = (Some (SuppliersUrl "8"), Ok inner)
       /\ lower (strip inner) = lower "resistors".
Proof.
  apply (find_exact_match_sound
           (static_ops (catalog [("https://www.lcsc.com/", " Resistors ")]))
           "resistors" _ (Some (SuppliersUrl "8"))).
  reflexivity.
Defined.

Lemma import_parts_accumulates_witness :
  let P := static_ops five_catalog in
  let t := {| success_count := 2; fail_count := 1; skipped_count := 0;
              failed_parts := ["C9"] |} in
  let t' := (import_parts P five_parts None t).2 in
  total t' = 8 /\ failed_parts t' = ["C9"; "C3"] /\ fail_count t' = 2
  /\ Z.of_nat (length (failed_parts t')) = fail_count t'.
Proof.
  intros P t t'.
  destruct (import_parts_accumulates P five_parts None t) as (H1 & H2 & H3 & H4).
  fold t' in H1, H2, H3, H4.
  split; [exact H1|]. split; [exact H2|]. split; [exact H3|].
  apply H4. reflexivity.
Defined.

Lemma main_with_args_exit_status_witness :
  (main_with_args (static_ops five_catalog) UsageError (fun _ => None) None).1 = None
  /\ (main_with_args (static_ops five_catalog) HelpPrinted (fun _ => None) None).1 = None.
Proof.
  split.
  - destruct (main_with_args_exit_status (static_ops five_catalog) UsageError
                (fun _ => None) None) as (_ & _ & _ & H).
    apply H. left. reflexivity.
  - destruct (main_with_args_exit_status (static_ops five_catalog) HelpPrinted
                (fun _ => None) None) as (_ & _ & _ & H).
    apply H. right. reflexivity.
Defined.
